(** * Cloudflare Access JWT middleware: a shallow embedding

    Source: packages/hono-helpers/src/middleware/useCloudflareAccess.ts

    The module validates the [Cf-Access-Jwt-Assertion] header of a request
    against the signing keys published by a Cloudflare Access team.  The
    embedding keeps the shape of the TypeScript: zod schemas become parsers
    on a JSON value type, regular expressions become terms of a small
    regular-expression type run by a derivative matcher, and the async body
    of [validateAccessJWT] becomes a computation in a monad that carries the
    thrown error and the log of the platform calls it made. *)

From Stdlib Require Import String Ascii List Bool ZArith NArith QArith Qround Lia.
Import ListNotations.
Close Scope Q_scope.
Open Scope string_scope.

Set Warnings "-register-all".
Set Warnings "-automation".


(* ================================================================= *)
(** ** Strings *)

Module Str.

(** [s.length >= 1], as in [z.string().min(1)]. *)
Definition nonempty (s : string) : bool :=
  match s with EmptyString => false | String _ _ => true end.

(** Every character of [s] satisfies [p]. *)
Fixpoint all (p : ascii -> bool) (s : string) : bool :=
  match s with
  | EmptyString => true
  | String c s' => p c && all p s'
  end.

(** [s.split(sep)] for a one-character separator: one more part than
    there are separators, empty parts kept, [[""]] on the empty string. *)
Fixpoint split (sep : ascii) (s : string) : list string :=
  match s with
  | EmptyString => [EmptyString]
  | String c s' =>
      if Ascii.eqb c sep then EmptyString :: split sep s'
      else match split sep s' with
           | [] => [String c EmptyString]
           | part :: parts => String c part :: parts
           end
  end.

(** [s.includes(needle)]. *)
Fixpoint includes (needle s : string) : bool :=
  String.prefix needle s ||
  match s with
  | EmptyString => false
  | String _ s' => includes needle s'
  end.

(** [s.replace(/c/g, d)] for single characters [c] and [d]. *)
Fixpoint replace_char (c d : ascii) (s : string) : string :=
  match s with
  | EmptyString => EmptyString
  | String x s' => String (if Ascii.eqb x c then d else x) (replace_char c d s')
  end.

(** [s.replace(/\s/g, '')] on a string of one-byte characters, such as a
    header value: of the class [\s] these are tab to carriage return, space
    and no-break space (160). *)
Definition is_space (c : ascii) : bool :=
  let n := N_of_ascii c in
  ((9 <=? n) && (n <=? 13))%N || (n =? 32)%N || (n =? 160)%N.

Fixpoint remove_spaces (s : string) : string :=
  match s with
  | EmptyString => EmptyString
  | String x s' => if is_space x then remove_spaces s' else String x (remove_spaces s')
  end.

End Str.

(* ================================================================= *)
(** ** Regular expressions

    The patterns of the module only use character classes, literals,
    [+] and [{n}], all between [^] and [$]; [test] below is a match of the
    whole string, which is what [^...$] asks for without the [m] flag. *)

Module Regex.

Inductive re : Type :=
| Void
| Eps
| Class (p : ascii -> bool)
| Seq (r1 r2 : re)
| Alt (r1 r2 : re)
| Star (r : re).

(** [r+] *)
Definition Plus (r : re) : re := Seq r (Star r).

(** [r{n}] *)
Fixpoint Rep (n : nat) (r : re) : re :=
  match n with
  | O => Eps
  | S n' => Seq r (Rep n' r)
  end.

(** A literal string, each character escaped as needed in the source. *)
Fixpoint Lit (s : string) : re :=
  match s with
  | EmptyString => Eps
  | String c s' => Seq (Class (Ascii.eqb c)) (Lit s')
  end.

Fixpoint nullable (r : re) : bool :=
  match r with
  | Void => false
  | Eps => true
  | Class _ => false
  | Seq r1 r2 => nullable r1 && nullable r2
  | Alt r1 r2 => nullable r1 || nullable r2
  | Star _ => true
  end.

Fixpoint deriv (c : ascii) (r : re) : re :=
  match r with
  | Void => Void
  | Eps => Void
  | Class p => if p c then Eps else Void
  | Seq r1 r2 =>
      if nullable r1 then Alt (Seq (deriv c r1) r2) (deriv c r2)
      else Seq (deriv c r1) r2
  | Alt r1 r2 => Alt (deriv c r1) (deriv c r2)
  | Star r1 => Seq (deriv c r1) (Star r1)
  end.

(** [re.test(s)] for an anchored pattern. *)
Fixpoint test (r : re) (s : string) : bool :=
  match s with
  | EmptyString => nullable r
  | String c s' => test (deriv c r) s'
  end.

(** The language of a pattern, as a relation. *)
Inductive matches : re -> string -> Prop :=
| MEps : matches Eps EmptyString
| MClass p c : p c = true -> matches (Class p) (String c EmptyString)
| MSeq r1 r2 s1 s2 : matches r1 s1 -> matches r2 s2 -> matches (Seq r1 r2) (s1 ++ s2)
| MAltL r1 r2 s : matches r1 s -> matches (Alt r1 r2) s
| MAltR r1 r2 s : matches r2 s -> matches (Alt r1 r2) s
| MStarNil r : matches (Star r) EmptyString
| MStarApp r s1 s2 : matches r s1 -> matches (Star r) s2 -> matches (Star r) (s1 ++ s2).

(** Character classes. *)
Definition range (lo hi : ascii) (c : ascii) : bool :=
  ((N_of_ascii lo <=? N_of_ascii c) && (N_of_ascii c <=? N_of_ascii hi))%N.

Definition to_upper (c : ascii) : ascii :=
  if range "a" "z" c then ascii_of_N (N_of_ascii c - 32) else c.

Definition to_lower (c : ascii) : ascii :=
  if range "A" "Z" c then ascii_of_N (N_of_ascii c + 32) else c.

(** A class under the [i] flag: a character matches when it or its other
    case is in the class. *)
Definition ignore_case (p : ascii -> bool) (c : ascii) : bool :=
  p c || p (to_lower c) || p (to_upper c).

End Regex.

(* ================================================================= *)
(** ** JSON values

    What [JSON.parse] and [Response.json()] return.  Numbers are the
    rationals (every finite double is one; a literal that overflows to
    [Infinity] is left out); an object is the list of its members,
    [undefined] is the absence of a member. *)

Inductive json : Type :=
| JNull
| JBool (b : bool)
| JNum (q : Q)
| JStr (s : string)
| JArr (items : list json)
| JObj (members : list (string * json)).

(** [obj[k]]: [None] is [undefined]. *)
Fixpoint member (k : string) (members : list (string * json)) : option json :=
  match members with
  | [] => None
  | (k', v) :: rest => if String.eqb k k' then Some v else member k rest
  end.

(* ================================================================= *)
(** ** Errors, platform calls and the monad of the async functions *)

(** Values thrown in the module.  [HTTPException] is what
    [newHTTPException] builds; the others are [Error] and its subclasses,
    each with the [message] the [catch] block logs. *)
Inductive JsError : Type :=
| Error (message : string)
| ZodError (message : string)
| SyntaxError (message : string)
| DOMException (message : string)
| TypeError (message : string)
| HTTPException (status : Z) (message : string).

(** [e instanceof Error ? e.message : 'unknown']: every value above is an
    [Error]. *)
Definition error_message (e : JsError) : string :=
  match e with
  | Error m | ZodError m | SyntaxError m | DOMException m | TypeError m => m
  | HTTPException _ m => m
  end.

(** Modelled from the spec: [newHTTPException] of helpers/errors, which is
    not among the sources; the spec calls its result a status-coded
    rejection, and useOnError.ts reads a status and a message from it. *)
Definition newHTTPException (status : Z) (message : string) : JsError :=
  HTTPException status message.

(** The key entry handed to [crypto.subtle.importKey]. *)
Record AccessKey : Type := {
  key_kid : string;
  key_kty : string;
  key_alg : string;
  key_use : string;
  key_e : string;
  key_n : string
}.

(** The result of [crypto.subtle.importKey]: the imported entry. *)
Record CryptoKey : Type := { imported : AccessKey }.

(** The calls a run makes on the outside world, in the order made. *)
Inductive event : Type :=
| EFetch (url : string)
| EImportKey (jwk : AccessKey)
| EVerify (key : CryptoKey) (signature data : string)
| ELoggerWarn (message : string) (error : JsError)
| ESentryCapture (error : JsError)
| ENext.

Inductive result (A : Type) : Type :=
| Ok (a : A)
| Throw (e : JsError).
Arguments Ok {A} a.
Arguments Throw {A} e.

(** A computation: its outcome and the calls it made. *)
Definition M (A : Type) : Type := (result A * list event)%type.

Definition ret {A} (a : A) : M A := (Ok a, []).
Definition throw {A} (e : JsError) : M A := (Throw e, []).
Definition emit (ev : event) : M unit := (Ok tt, [ev]).

Definition bind {A B} (m : M A) (f : A -> M B) : M B :=
  match m with
  | (Ok a, t) => let (r, t') := f a in (r, (t ++ t')%list)
  | (Throw e, t) => (Throw e, t)
  end.

(** [try { m } catch (e) { h e }] *)
Definition try_catch {A} (m : M A) (h : JsError -> M A) : M A :=
  match m with
  | (Ok a, t) => (Ok a, t)
  | (Throw e, t) => let (r, t') := h e in (r, (t ++ t')%list)
  end.

(** A pure step that may throw. *)
Definition lift {A} (r : result A) : M A := (r, []).

Declare Scope js_scope.
Delimit Scope js_scope with js.
Notation "x <- m ;; k" := (bind m (fun x => k))
  (at level 61, m at next level, right associativity) : js_scope.
Notation "m ;;; k" := (bind m (fun _ => k))
  (at level 61, right associativity) : js_scope.

Definition outcome {A} (m : M A) : result A := fst m.
Definition calls {A} (m : M A) : list event := snd m.

Definition is_fetch (ev : event) : bool :=
  match ev with EFetch _ => true | _ => false end.
Definition is_verify (ev : event) : bool :=
  match ev with EVerify _ _ _ => true | _ => false end.
Definition is_importKey (ev : event) : bool :=
  match ev with EImportKey _ => true | _ => false end.

(** How many of the calls satisfy [p]. *)
Definition count_calls (p : event -> bool) (t : list event) : nat :=
  length (filter p t).

(* ================================================================= *)
(** ** The platform

    What the module calls and does not define: [atob], [JSON.parse] after
    [TextDecoder.decode], zod's uuid format, [fetch], Web Crypto and the
    clock.  An [HttpResponse] keeps its status although the module never
    reads it. *)

Record HttpResponse : Type := {
  status : Z;
  body : string
}.

Record Platform : Type := {
  (** [atob(s)]: the decoded bytes, or [None] where it throws. *)
  atob : string -> option string;
  (** [JSON.parse(text)], [None] where it throws a SyntaxError. *)
  JSON_parse : string -> option json;
  (** the format behind [z.string().uuid()] *)
  zod_uuid : string -> bool;
  (** [fetch(url, ...)]: [None] is a rejected promise (network failure). *)
  fetch : string -> option HttpResponse;
  (** whether [crypto.subtle.importKey('jwk', jwk, ...)] accepts the entry *)
  importKey_ok : AccessKey -> bool;
  (** [crypto.subtle.verify('RSASSA-PKCS1-v1_5', key, signature, data)] *)
  verify_ok : CryptoKey -> string -> string -> bool;
  (** [Date.now()], an integer of milliseconds; dividing it by 1000 in
      doubles and in the rationals gives the same floor and ceiling *)
  Date_now : Z;
  (** whether the URL parser accepts [base] in [new URL(path, base)]:
      it refuses a host that is not a valid domain, such as one with a
      label that starts with [xn--] and is not punycode *)
  URL_canParse : string -> bool
}.

Record URL : Type := {
  href : string;
  origin : string
}.

(** The URL that [new URL(path, base)] returns for an absolute [path]
    and a [base] of the form [https://host], the only form
    [AccessTeamDomain] admits: the origin is the base and the path replaces
    the base's empty one.  The host is lower-case ASCII already, so the
    parser leaves it as written. *)
Definition resolved_URL (path base : string) : URL :=
  {| href := base ++ path; origin := base |}.

(** [new URL(path, base)]: a TypeError where the parser refuses the
    base. *)
Definition new_URL (P : Platform) (path base : string) : result URL :=
  if URL_canParse P base then Ok (resolved_URL path base)
  else Throw (TypeError "Invalid URL").

(** A request is read through [headers.get] only. *)
Record Request : Type := {
  headers_get : string -> option string
}.

(** The Hono context: the raw request and the optional [logger] and
    [sentry] variables ([true] when set). *)
Record Context : Type := {
  req_raw : Request;
  var_logger : bool;
  var_sentry : bool
}.

(* ================================================================= *)
(** ** The zod schemas of the module ("TYPES" in the source)

    A schema reads a value that may be [undefined] ([None]) and gives the
    parsed value, or [None] where [parse] throws a ZodError.  Object
    schemas are zod's default ones: unknown members are dropped. *)

Module Zod.

Import Regex.

Definition schema (A : Type) : Type := option json -> option A.

Notation "'let?' x ':=' m 'in' k" :=
  (match m with Some x => k | None => None end)
  (at level 10, x name, m at level 100, k at level 200, only parsing).

(** [z.string()] *)
Definition z_string : schema string :=
  fun v => match v with Some (JStr s) => Some s | _ => None end.

(** [z.string().regex(r)] *)
Definition z_regex (r : re) : schema string :=
  fun v => let? s := z_string v in if test r s then Some s else None.

(** [z.string().min(1)] *)
Definition z_string_min1 : schema string :=
  fun v => let? s := z_string v in if Str.nonempty s then Some s else None.

(** [z.literal(lit)] for a string literal *)
Definition z_literal (lit : string) : schema string :=
  fun v => let? s := z_string v in if String.eqb s lit then Some s else None.

(** [z.enum(options)] *)
Definition z_enum (options : list string) : schema string :=
  fun v => let? s := z_string v in
           if existsb (String.eqb s) options then Some s else None.

(** [z.number().min(1)] *)
Definition z_number_min1 : schema Q :=
  fun v => match v with
           | Some (JNum q) => if Qle_bool 1%Q q then Some q else None
           | _ => None
           end.

(** [z.undefined()] *)
Definition z_undefined : schema unit :=
  fun v => match v with None => Some tt | Some _ => None end.

(** [s.optional()] *)
Definition z_optional {A} (s : schema A) : schema (option A) :=
  fun v => match v with
           | None => Some None
           | Some _ => let? a := s v in Some (Some a)
           end.

Fixpoint parse_items {A} (s : schema A) (items : list json) : option (list A) :=
  match items with
  | [] => Some []
  | j :: rest =>
      let? a := s (Some j) in
      let? others := parse_items s rest in
      Some (a :: others)
  end.

(** [z.array(s)] *)
Definition z_array {A} (s : schema A) : schema (list A) :=
  fun v => match v with Some (JArr items) => parse_items s items | _ => None end.

(** [z.array(s).min(1)] *)
Definition z_array_min1 {A} (s : schema A) : schema (list A) :=
  fun v => let? l := z_array s v in
           match l with [] => None | _ :: _ => Some l end.

(** [z.object({...})]: the value must be an object; [shape] reads its
    members. *)
Definition z_object {A} (shape : list (string * json) -> option A) : schema A :=
  fun v => match v with Some (JObj members) => shape members | _ => None end.

(** [[a-z0-9_-]] *)
Definition jwt_char (c : ascii) : bool :=
  range "a" "z" c || range "0" "9" c || Ascii.eqb c "_" || Ascii.eqb c "-".

(** [[a-z0-9-]] *)
Definition team_char (c : ascii) : bool :=
  range "a" "z" c || range "0" "9" c || Ascii.eqb c "-".

(** [[a-f0-9]] *)
Definition hex_char (c : ascii) : bool :=
  range "a" "f" c || range "0" "9" c.

(** [/^[a-z0-9_-]+\.[a-z0-9_-]+\.[a-z0-9_-]+$/i] *)
Definition accessJWTRegex : re :=
  Seq (Plus (Class (ignore_case jwt_char)))
    (Seq (Lit ".")
       (Seq (Plus (Class (ignore_case jwt_char)))
          (Seq (Lit ".")
             (Plus (Class (ignore_case jwt_char)))))).

Definition AccessJWT : schema string := z_regex accessJWTRegex.

(** [/^[a-z0-9-]+$/] *)
Definition accessTeamRegex : re := Plus (Class team_char).
Definition AccessTeam : schema string := z_regex accessTeamRegex.

(** [/^https:\/\/[a-z0-9-]+\.cloudflareaccess\.com$/] *)
Definition accessTeamDomainRegex : re :=
  Seq (Lit "https://") (Seq (Plus (Class team_char)) (Lit ".cloudflareaccess.com")).
Definition AccessTeamDomain : schema string := z_regex accessTeamDomainRegex.

(** [/^[a-f0-9]{64}$/] *)
Definition hex64Regex : re := Rep 64 (Class hex_char).
Definition AccessKid : schema string := z_regex hex64Regex.
Definition AccessAudience : schema string := z_regex hex64Regex.

Definition AccessAlgorithm : schema string := z_literal "RS256".

Record AccessHeader : Type := {
  hdr_kid : string;
  hdr_alg : string;
  hdr_typ : option string
}.

Definition AccessHeader_schema : schema AccessHeader :=
  z_object (fun o =>
    let? kid := AccessKid (member "kid" o) in
    let? alg := AccessAlgorithm (member "alg" o) in
    let? typ := z_optional (z_literal "JWT") (member "typ" o) in
    Some {| hdr_kid := kid; hdr_alg := alg; hdr_typ := typ |}).

Definition AccessKey_schema : schema AccessKey :=
  z_object (fun o =>
    let? kid := AccessKid (member "kid" o) in
    let? kty := z_literal "RSA" (member "kty" o) in
    let? alg := AccessAlgorithm (member "alg" o) in
    let? use := z_string_min1 (member "use" o) in
    let? e := z_string_min1 (member "e" o) in
    let? n := z_string_min1 (member "n" o) in
    Some {| key_kid := kid; key_kty := kty; key_alg := alg;
            key_use := use; key_e := e; key_n := n |}).

Record PublicCERT : Type := {
  cert_kid : string;
  cert : string
}.

Definition PublicCERT_schema : schema PublicCERT :=
  z_object (fun o =>
    let? kid := AccessKid (member "kid" o) in
    let? c := z_string_min1 (member "cert" o) in
    if Str.includes "-----BEGIN CERTIFICATE-----" c
       && Str.includes "-----END CERTIFICATE-----" c
    then Some {| cert_kid := kid; cert := c |}
    else None).

Record AccessCertsResponse : Type := {
  keys : list AccessKey;
  public_cert : PublicCERT;
  public_certs : list PublicCERT
}.

Definition AccessCertsResponse_schema : schema AccessCertsResponse :=
  z_object (fun o =>
    let? ks := z_array_min1 AccessKey_schema (member "keys" o) in
    let? pc := PublicCERT_schema (member "public_cert" o) in
    let? pcs := z_array_min1 PublicCERT_schema (member "public_certs" o) in
    Some {| keys := ks; public_cert := pc; public_certs := pcs |}).

Record AccessPayloadCommon : Type := {
  type : string;
  exp : Q;
  iat : Q;
  iss : string
}.

Definition AccessPayloadCommon_shape (o : list (string * json))
  : option AccessPayloadCommon :=
  let? t := z_enum ["app"; "org"] (member "type" o) in
  let? e := z_number_min1 (member "exp" o) in
  let? i := z_number_min1 (member "iat" o) in
  let? s := AccessTeamDomain (member "iss" o) in
  Some {| type := t; exp := e; iat := i; iss := s |}.

(** [/^[a-f0-9]{32}\.access$/] *)
Definition commonNameRegex : re := Seq (Rep 32 (Class hex_char)) (Lit ".access").

(** [identity_nonce] is [undefined] on this variant, so it has no field. *)
Record ServiceAuthAccessPayload : Type := {
  svc_common : AccessPayloadCommon;
  svc_aud : string;
  svc_common_name : string;
  svc_sub : string
}.

Record UserAccessPayload : Type := {
  user_common : AccessPayloadCommon;
  user_aud : list string;
  user_nbf : Q;
  user_email : string;
  user_identity_nonce : string;
  user_sub : string;
  user_country : string
}.

Inductive AccessPayload : Type :=
| UserPayload (u : UserAccessPayload)
| ServiceAuthPayload (s : ServiceAuthAccessPayload).

Section WithUuid.

(** the format of [z.string().uuid()] *)
Variable uuid : string -> bool.

Definition ServiceAuthAccessPayload_schema : schema ServiceAuthAccessPayload :=
  z_object (fun o =>
    let? common := AccessPayloadCommon_shape o in
    let? aud := AccessAudience (member "aud" o) in
    let? cn := z_regex commonNameRegex (member "common_name" o) in
    let? sub := z_literal "" (member "sub" o) in
    let? _nonce := z_undefined (member "identity_nonce" o) in
    Some {| svc_common := common; svc_aud := aud;
            svc_common_name := cn; svc_sub := sub |}).

Definition UserAccessPayload_schema : schema UserAccessPayload :=
  z_object (fun o =>
    let? common := AccessPayloadCommon_shape o in
    let? aud := z_array AccessAudience (member "aud" o) in
    let? nbf := z_number_min1 (member "nbf" o) in
    let? email := z_string_min1 (member "email" o) in
    if negb (Str.includes "@" email) then None else
    let? nonce := z_string_min1 (member "identity_nonce" o) in
    let? sub := z_string (member "sub" o) in
    if negb (uuid sub) then None else
    let? country := z_string (member "country" o) in
    if negb (Nat.eqb (String.length country) 2) then None else
    Some {| user_common := common; user_aud := aud; user_nbf := nbf;
            user_email := email; user_identity_nonce := nonce;
            user_sub := sub; user_country := country |}).

(** [z.union([UserAccessPayload, ServiceAuthAccessPayload])]: the first
    option that parses. *)
Definition AccessPayload_schema : schema AccessPayload :=
  fun v =>
    match UserAccessPayload_schema v with
    | Some u => Some (UserPayload u)
    | None =>
        match ServiceAuthAccessPayload_schema v with
        | Some s => Some (ServiceAuthPayload s)
        | None => None
        end
    end.

End WithUuid.

(** The members the validator reads from a parsed payload. *)
Definition payload_common (p : AccessPayload) : AccessPayloadCommon :=
  match p with
  | UserPayload u => user_common u
  | ServiceAuthPayload s => svc_common s
  end.

(** [payload.aud]: a string or an array of strings. *)
Definition payload_aud (p : AccessPayload) : string + list string :=
  match p with
  | UserPayload u => inr (user_aud u)
  | ServiceAuthPayload s => inl (svc_aud s)
  end.

(** [payload.identity_nonce], [None] for [undefined]. *)
Definition payload_identity_nonce (p : AccessPayload) : option string :=
  match p with
  | UserPayload u => Some (user_identity_nonce u)
  | ServiceAuthPayload _ => None
  end.

(** [payload.nbf], [None] for [undefined]. *)
Definition payload_nbf (p : AccessPayload) : option Q :=
  match p with
  | UserPayload u => Some (user_nbf u)
  | ServiceAuthPayload _ => None
  end.

(** [schema.parse(value)]: the ZodError carries the schema's name where
    zod's message lists the issues. *)
Definition parse {A} (name : string) (s : schema A) (value : json) : result A :=
  match s (Some value) with
  | Some a => Ok a
  | None => Throw (ZodError name)
  end.

End Zod.

(* ================================================================= *)
(** ** The functions of the module *)

Import Zod.
Open Scope js_scope.

Section UseCloudflareAccess.

Variable P : Platform.

(** [req.headers.get(name)] as the value handed to zod: [null] when the
    header is absent. *)
Definition header_value (req : Request) (name : string) : json :=
  match headers_get req name with
  | Some s => JStr s
  | None => JNull
  end.

Definition extractJWTFromRequest (req : Request) : result string :=
  parse "AccessJWT" AccessJWT (header_value req "Cf-Access-Jwt-Assertion").

Definition includesAud (payload : AccessPayload) (aud : string) : bool :=
  match payload_aud payload with
  | inl a => String.eqb a aud
  | inr l => existsb (String.eqb aud) l
  end.

Definition hasValidJWT (req : Request) : bool :=
  match extractJWTFromRequest req with
  | Ok _ => true
  | Throw _ => false
  end.

(** The bytes of the result are kept as a string of bytes. *)
Definition base64URLDecode (s : string) : result string :=
  let s := Str.replace_char "-" "+" s in
  let s := Str.replace_char "_" "/" s in
  let s := Str.remove_spaces s in
  match atob P s with
  | Some bytes => Ok bytes
  | None => Throw (DOMException "InvalidCharacterError")
  end.

(** The char codes of [s], one byte each. *)
Definition asciiToUint8Array (s : string) : string := s.

(** [JSON.parse(textDecoder.decode(bytes))] *)
Definition JSON_parse_bytes (bytes : string) : result json :=
  match JSON_parse P bytes with
  | Some j => Ok j
  | None => Throw (SyntaxError "Unexpected token")
  end.

(** [await fetch(url, { cf: { cacheEverything: true, cacheTtl: seconds('1 day') } })] *)
Definition do_fetch (url : string) : M HttpResponse :=
  emit (EFetch url) ;;;
  match fetch P url with
  | Some r => ret r
  | None => throw (TypeError "fetch failed")
  end.

(** [await crypto.subtle.importKey('jwk', jwk, ..., false, ['verify'])] *)
Definition crypto_subtle_importKey (jwk : AccessKey) : M CryptoKey :=
  emit (EImportKey jwk) ;;;
  if importKey_ok P jwk then ret {| imported := jwk |}
  else throw (DOMException "DataError").

(** [await crypto.subtle.verify('RSASSA-PKCS1-v1_5', key, signature, data)] *)
Definition crypto_subtle_verify (key : CryptoKey) (signature data : string) : M bool :=
  emit (EVerify key signature data) ;;;
  ret (verify_ok P key signature data).

(** A value as the condition of [&&]: a string is truthy unless empty,
    [undefined] is not. *)
Definition truthy (v : option string) : bool :=
  match v with
  | Some s => Str.nonempty s
  | None => false
  end.

(** [Math.ceil(x) < nbf]; a comparison with [undefined] is false. *)
Definition ceil_lt (x : Q) (nbf : option Q) : bool :=
  match nbf with
  | Some n => negb (Qle_bool n (inject_Z (Qceiling x)))
  | None => false
  end.

Definition validateAccessJWT (request : Request)
    (accessTeamDomain accessAud : string) : M (string * AccessPayload) :=
  jwt <- lift (extractJWTFromRequest request) ;;
  match Str.split "." jwt with
  | [header; payload; signature] =>
      headerBytes <- lift (base64URLDecode header) ;;
      headerJson <- lift (JSON_parse_bytes headerBytes) ;;
      accessHeader <- lift (parse "AccessHeader" AccessHeader_schema headerJson) ;;
      let kid := hdr_kid accessHeader in
      certsURL <- lift (new_URL P "/cdn-cgi/access/certs" accessTeamDomain) ;;
      certsResponse <- do_fetch (href certsURL) ;;
      certsJson <- lift (JSON_parse_bytes (body certsResponse)) ;;
      certs <- lift (parse "AccessCertsResponse" AccessCertsResponse_schema certsJson) ;;
      match find (fun key => String.eqb (key_kid key) kid) (keys certs) with
      | None => throw (Error "Could not find matching signing key.")
      | Some jwk =>
          key <- crypto_subtle_importKey jwk ;;
          let unroundedSecondsSinceEpoch := (Date_now P # 1000)%Q in
          payloadBytes <- lift (base64URLDecode payload) ;;
          payloadJson <- lift (JSON_parse_bytes payloadBytes) ;;
          payloadObj <- lift (parse "AccessPayload"
                                (AccessPayload_schema (zod_uuid P)) payloadJson) ;;
          if negb (String.eqb (iss (payload_common payloadObj)) (origin certsURL)) then
            throw (Error "JWT issuer is incorrect.")
          else if negb (includesAud payloadObj accessAud) then
            throw (Error "JWT audience is incorrect.")
          else if Qle_bool (exp (payload_common payloadObj))
                    (inject_Z (Qfloor unroundedSecondsSinceEpoch)) then
            throw (Error "JWT has expired.")
          else if truthy (payload_identity_nonce payloadObj)
                  && ceil_lt unroundedSecondsSinceEpoch (payload_nbf payloadObj) then
            throw (Error "JWT is not yet valid.")
          else
            signatureBytes <- lift (base64URLDecode signature) ;;
            verified <- crypto_subtle_verify key signatureBytes
                          (asciiToUint8Array (header ++ "." ++ payload)) ;;
            if negb verified then throw (Error "Could not verify JWT.")
            else ret (jwt, payloadObj)
      end
  | _ => throw (Error "JWT does not have three parts.")
  end.

(** [c.var.logger?.warn(...)] and [c.var.sentry?.captureException(e)],
    two calls that return. *)
Definition report (c : Context) (e : JsError) : M unit :=
  (if var_logger c
   then emit (ELoggerWarn ("validateAccessJWT failed " ++ error_message e) e)
   else ret tt) ;;;
  (if var_sentry c then emit (ESentryCapture e) else ret tt).

(** The middleware returned by [useCloudflareAccess]; [next] is the rest
    of the handler chain. *)
Definition middleware (accessTeamDomain accessAud : string)
    (c : Context) (next : M unit) : M unit :=
  if negb (hasValidJWT (req_raw c)) then
    throw (newHTTPException 401 "unauthorized")
  else
    try_catch
      (validateAccessJWT (req_raw c) accessTeamDomain accessAud ;;; ret tt)
      (fun e => report c e ;;; throw (newHTTPException 401 "unauthorized")) ;;;
    next.

(** The template literal [`https://${team}.cloudflareaccess.com`]. *)
Definition teamDomain (team : string) : string :=
  "https://" ++ team ++ ".cloudflareaccess.com".

(** Construction: the three [parse] calls run before the middleware is
    returned, so a ZodError here is thrown to the code that builds the
    application, with no platform call made. *)
Definition useCloudflareAccess (team audience : string)
  : result (Context -> M unit -> M unit) :=
  match parse "AccessTeam" AccessTeam (JStr team) with
  | Throw e => Throw e
  | Ok team' =>
      match parse "AccessTeamDomain" AccessTeamDomain
              (JStr (teamDomain team')) with
      | Throw e => Throw e
      | Ok accessTeamDomain =>
          match parse "AccessAudience" AccessAudience (JStr audience) with
          | Throw e => Throw e
          | Ok accessAud => Ok (middleware accessTeamDomain accessAud)
          end
      end
  end.

End UseCloudflareAccess.

(* ================================================================= *)
(** ** What a run decodes

    The values [validateAccessJWT] computes on its way, named so that
    statements can speak of "the token's header", "the fetched key set"
    and "the token's payload".  Each is the same chain of calls as in the
    function above. *)

Section Decoded.

Variable P : Platform.

(** [const [header, payload, signature] = jwt.split('.')] *)
Definition token_parts (req : Request) : option (string * string * string) :=
  match extractJWTFromRequest req with
  | Ok jwt =>
      match Str.split "." jwt with
      | [header; payload; signature] => Some (header, payload, signature)
      | _ => None
      end
  | Throw _ => None
  end.

(** [JSON.parse(textDecoder.decode(base64URLDecode(segment)))] *)
Definition decode_segment (segment : string) : result json :=
  match base64URLDecode P segment with
  | Ok bytes => JSON_parse_bytes P bytes
  | Throw e => Throw e
  end.

Definition token_header (req : Request) : option AccessHeader :=
  match token_parts req with
  | Some (header, _, _) =>
      match decode_segment header with
      | Ok j => AccessHeader_schema (Some j)
      | Throw _ => None
      end
  | None => None
  end.

Definition token_payload (req : Request) : option AccessPayload :=
  match token_parts req with
  | Some (_, payload, _) =>
      match decode_segment payload with
      | Ok j => AccessPayload_schema (zod_uuid P) (Some j)
      | Throw _ => None
      end
  | None => None
  end.

(** The parsed body of the certs response for a team domain: none when
    [new URL] throws for the domain, so that nothing is fetched. *)
Definition fetched_certs (accessTeamDomain : string) : option AccessCertsResponse :=
  match new_URL P "/cdn-cgi/access/certs" accessTeamDomain with
  | Ok certsURL =>
      match fetch P (href certsURL) with
      | Some response =>
          match JSON_parse_bytes P (body response) with
          | Ok j => AccessCertsResponse_schema (Some j)
          | Throw _ => None
          end
      | None => None
      end
  | Throw _ => None
  end.

(** [keys.find((key) => key.kid === kid)] *)
Definition find_key (kid : string) (ks : list AccessKey) : option AccessKey :=
  find (fun key => String.eqb (key_kid key) kid) ks.

(** The key the run imports: the entry of the fetched key set whose [kid]
    is the header's, when [importKey] accepts it. *)
Definition signing_key (req : Request) (accessTeamDomain : string) : option AccessKey :=
  match token_header req, fetched_certs accessTeamDomain with
  | Some h, Some certs =>
      match find_key (hdr_kid h) (keys certs) with
      | Some jwk => if importKey_ok P jwk then Some jwk else None
      | None => None
      end
  | _, _ => None
  end.

(** Whether the token's signature segment decodes and verifies under
    [jwk] over the bytes of [header.payload]. *)
Definition signature_verifies (req : Request) (jwk : AccessKey) : bool :=
  match token_parts req with
  | Some (header, payload, signature) =>
      match base64URLDecode P signature with
      | Ok bytes =>
          verify_ok P {| imported := jwk |} bytes
            (asciiToUint8Array (header ++ "." ++ payload))
      | Throw _ => false
      end
  | None => false
  end.

(** [Math.floor(Date.now() / 1000)] and [Math.ceil(Date.now() / 1000)] *)
Definition now_floor : Z := Qfloor (Date_now P # 1000)%Q.
Definition now_ceil : Z := Qceiling (Date_now P # 1000)%Q.

End Decoded.

Definition is_throw {A} (r : result A) : bool :=
  match r with Throw _ => true | Ok _ => false end.

(** The generic rejection of the middleware. *)
Definition unauthorized : JsError := newHTTPException 401 "unauthorized".

(* ================================================================= *)
(** ** The claim about the team identifier, in the spec's words

    "Alphanumeric characters plus hyphen": letters of either case, digits
    and [-]. *)

Definition alphanumeric_or_hyphen (c : ascii) : bool :=
  Regex.range "a" "z" c || Regex.range "A" "Z" c || Regex.range "0" "9" c
  || Ascii.eqb c "-".

Definition spec_team_ok (team : string) : bool :=
  Str.all alphanumeric_or_hyphen team.

(* ================================================================= *)
(** ** Test doubles

    A platform for running the functions on concrete requests: [atob] is
    the identity, [JSON.parse] knows a handful of documents by name, the
    certs endpoint of team [myteam] serves the document named by
    [certs_doc], [verify] accepts the signature [goodsig], and the URL
    parser refuses the hosts that start with [xn--]. *)

Module Example.

Import Regex.

Definition hex16 : string := "0123456789abcdef".
Definition kid1 : string := hex16 ++ hex16 ++ hex16 ++ hex16.
Definition kid2 : string := "f" ++ hex16 ++ hex16 ++ hex16 ++ "0123456789abcde".
Definition aud1 : string := "a1b2" ++ hex16 ++ hex16 ++ hex16 ++ "0123456789ab".
Definition aud2 : string := "ffff" ++ hex16 ++ hex16 ++ hex16 ++ "0123456789ab".
Definition team : string := "myteam".
Definition domain : string := "https://myteam.cloudflareaccess.com".

Definition header_doc (kid : string) : json :=
  JObj [("kid", JStr kid); ("alg", JStr "RS256"); ("typ", JStr "JWT")].

Definition key_doc (kid : string) : json :=
  JObj [("kid", JStr kid); ("kty", JStr "RSA"); ("alg", JStr "RS256");
        ("use", JStr "sig"); ("e", JStr "AQAB"); ("n", JStr "modulus")].

Definition cert_doc (kid : string) : json :=
  JObj [("kid", JStr kid);
        ("cert", JStr "-----BEGIN CERTIFICATE-----MIIB-----END CERTIFICATE-----")].

Definition certs_doc (ks cs : list json) : json :=
  JObj [("keys", JArr ks); ("public_cert", cert_doc kid1); ("public_certs", JArr cs)].

Definition user_doc (iss : string) (exp nbf : Z) : json :=
  JObj [("type", JStr "app"); ("exp", JNum (inject_Z exp));
        ("iat", JNum (inject_Z 1699999000)); ("iss", JStr iss);
        ("aud", JArr [JStr aud1; JStr aud2]); ("nbf", JNum (inject_Z nbf));
        ("email", JStr "user@example.com"); ("identity_nonce", JStr "nonce");
        ("sub", JStr "123e4567-e89b-42d3-a456-426614174000");
        ("country", JStr "US")].

Definition service_doc (aud : string) : json :=
  JObj [("type", JStr "app"); ("exp", JNum (inject_Z 1700003600));
        ("iat", JNum (inject_Z 1699999000)); ("iss", JStr domain);
        ("aud", JStr aud);
        ("common_name", JStr ("0123456789abcdef0123456789abcdef" ++ ".access"));
        ("sub", JStr "")].

(** The clock of the examples: 1700000000 seconds, to the millisecond. *)
Definition now_ms : Z := 1700000000000.

Definition documents : list (string * json) :=
  [ ("hdr", header_doc kid1);
    ("hdr2", header_doc kid2);
    ("user", user_doc domain 1700003600 1699999940);
    ("userexp", user_doc domain 1700000000 1699999940);
    ("userold", user_doc domain 1699999999 1699999940);
    ("usernbf", user_doc domain 1700003600 1700000060);
    ("useriss", user_doc "https://evil.cloudflareaccess.com" 1700003600 1699999940);
    ("svc", service_doc aud1);
    ("svc2", service_doc aud2);
    ("certs", certs_doc [key_doc kid1] [cert_doc kid1]);
    ("nokeys", certs_doc [] [cert_doc kid1]);
    ("nocerts", certs_doc [key_doc kid1] []) ].

Definition hex_any_case (c : ascii) : bool :=
  range "0" "9" c || range "a" "f" c || range "A" "F" c.

Definition uuid_format : re :=
  Seq (Rep 8 (Class hex_any_case)) (Seq (Lit "-")
    (Seq (Rep 4 (Class hex_any_case)) (Seq (Lit "-")
      (Seq (Rep 4 (Class hex_any_case)) (Seq (Lit "-")
        (Seq (Rep 4 (Class hex_any_case)) (Seq (Lit "-")
          (Rep 12 (Class hex_any_case))))))))).

Definition platform (certs_body : string) : Platform :=
  {| atob := fun s => Some s;
     JSON_parse := fun text => member text documents;
     zod_uuid := test uuid_format;
     fetch := fun url =>
       if String.eqb url "https://myteam.cloudflareaccess.com/cdn-cgi/access/certs"
       then Some {| status := 200; body := certs_body |}
       else None;
     importKey_ok := fun _ => true;
     verify_ok := fun _ signature _ => String.eqb signature "goodsig";
     Date_now := now_ms;
     URL_canParse := fun base => negb (String.prefix "https://xn--" base) |}.

Definition request (token : option string) : Request :=
  {| headers_get := fun name =>
       if String.eqb name "Cf-Access-Jwt-Assertion" then token else None |}.

Definition context (token : option string) : Context :=
  {| req_raw := request token; var_logger := true; var_sentry := true |}.

(** The rest of the handler chain: it only records that it ran. *)
Definition next : M unit := emit ENext.

End Example.

(* ================================================================= *)
(** ** The claim checks as a function

    Lines 121-133 of the source, read as "the error of the first check
    that fails", for a run in which [new URL] returned; [validateAccessJWT]
    above keeps them inline, and [Validate.validateAccessJWT_run] relates
    the two. *)

Definition claim_checks (P : Platform) (accessTeamDomain accessAud : string)
    (payloadObj : AccessPayload) : option JsError :=
  let certsURL := resolved_URL "/cdn-cgi/access/certs" accessTeamDomain in
  let unroundedSecondsSinceEpoch := (Date_now P # 1000)%Q in
  if negb (String.eqb (iss (payload_common payloadObj)) (origin certsURL)) then
    Some (Error "JWT issuer is incorrect.")
  else if negb (includesAud payloadObj accessAud) then
    Some (Error "JWT audience is incorrect.")
  else if Qle_bool (exp (payload_common payloadObj))
            (inject_Z (Qfloor unroundedSecondsSinceEpoch)) then
    Some (Error "JWT has expired.")
  else if truthy (payload_identity_nonce payloadObj)
          && ceil_lt unroundedSecondsSinceEpoch (payload_nbf payloadObj) then
    Some (Error "JWT is not yet valid.")
  else None.

(** The URL of the key fetch for a team domain. *)
Definition certs_url (accessTeamDomain : string) : string :=
  href (resolved_URL "/cdn-cgi/access/certs" accessTeamDomain).

(* ================================================================= *)
(** ** Alphabets and platform variants used in the statements below *)

(** The base64url alphabet: [[A-Za-z0-9_-]]. *)
Definition base64url_char (c : ascii) : bool :=
  Regex.range "a" "z" c || Regex.range "A" "Z" c || Regex.range "0" "9" c
  || Ascii.eqb c "_" || Ascii.eqb c "-".

(** The standard base64 alphabet without padding: [[A-Za-z0-9+/]]. *)
Definition base64_char (c : ascii) : bool :=
  Regex.range "a" "z" c || Regex.range "A" "Z" c || Regex.range "0" "9" c
  || Ascii.eqb c "+" || Ascii.eqb c "/".

(** The alphabet after the first [replace] of [base64URLDecode]. *)
Definition after_minus (c : ascii) : bool :=
  Regex.range "a" "z" c || Regex.range "A" "Z" c || Regex.range "0" "9" c
  || Ascii.eqb c "_" || Ascii.eqb c "+".

(** The one-byte characters of the class [\s], by their codes: tab, line
    feed, vertical tab, form feed, carriage return, space, no-break space. *)
Definition white_space_codes : list N := [9; 10; 11; 12; 13; 32; 160]%N.

(** Neither [-] nor [_] nor one of the white space characters. *)
Definition no_url_char_or_space (c : ascii) : bool :=
  negb (Ascii.eqb c "-") && negb (Ascii.eqb c "_")
  && negb (existsb (N.eqb (N_of_ascii c)) white_space_codes).

(** The string [base64URLDecode] hands to [atob]. *)
Definition atob_input (s : string) : string :=
  Str.remove_spaces (Str.replace_char "_" "/" (Str.replace_char "-" "+" s)).

(** The same platform with the status of every response rewritten. *)
Definition with_status (f : Z -> Z) (P : Platform) : Platform :=
  {| atob := atob P;
     JSON_parse := JSON_parse P;
     zod_uuid := zod_uuid P;
     fetch := fun url =>
       match fetch P url with
       | Some r => Some {| status := f (status r); body := body r |}
       | None => None
       end;
     importKey_ok := importKey_ok P;
     verify_ok := verify_ok P;
     Date_now := Date_now P;
     URL_canParse := URL_canParse P |}.

(** The calls the catch block of the middleware makes for an error. *)
Definition reported (c : Context) (e : JsError) : list event :=
  ((if var_logger c
    then [ELoggerWarn ("validateAccessJWT failed " ++ error_message e) e]
    else []) ++
   (if var_sentry c then [ESentryCapture e] else []))%list.

(* ================================================================= *)
(** * The error handler

    Source: packages/hono-helpers/src/middleware/useOnError.ts *)

(** [c.json(body, status)] *)
Record JsonResponse : Type := {
  res_status : Z;
  res_json : json
}.

(** The calls of the handler on Sentry and the console. *)
Inductive onError_call : Type :=
| SentrySetContext (name : string) (context : json)
| SentryCaptureException (e : JsError)
| ConsoleError (e : JsError).

(** [{ success: false, error: { message } }] *)
Definition APIError (message : string) : json :=
  JObj [("success", JBool false); ("error", JObj [("message", JStr message)])].

(** The handler returned by [useOnError()].  [err.getResponse().status] of
    an exception built from a status and a message is that status;
    [withScope] runs its callback at once. *)
Definition useOnError (err : JsError) (c : Context)
  : JsonResponse * list onError_call :=
  match err with
  | HTTPException status message =>
      let body := APIError message in
      if (500 <=? status)%Z then
        ({| res_status := status; res_json := body |},
         if var_sentry c
         then [SentrySetContext "HTTP Exception"
                 (JObj [("status", JNum (inject_Z status)); ("body", body)]);
               SentryCaptureException err]
         else [])
      else if (status =? 401)%Z then
        ({| res_status := status; res_json := APIError "unauthorized" |}, [])
      else
        ({| res_status := status; res_json := body |}, [])
  | _ =>
      ({| res_status := 500; res_json := APIError "internal server error" |},
       ((if var_sentry c then [SentryCaptureException err] else [])
        ++ [ConsoleError err])%list)
  end.

(* ================================================================= *)
(** * Token authentication

    Source: packages/hono-helpers/src/middleware/useAuth.ts

    Strings here are sequences of one-byte characters, which is what header
    values are; a token or a query value with a character above 255 is
    outside the model. *)

(** White space for [trim], on strings of one-byte characters such as
    header values: tab to carriage return, space, no-break space. *)
Definition is_trim_space (c : ascii) : bool :=
  let n := N_of_ascii c in
  ((9 <=? n) && (n <=? 13))%N || (n =? 32)%N || (n =? 160)%N.

Fixpoint trimStart (s : string) : string :=
  match s with
  | EmptyString => EmptyString
  | String c s' => if is_trim_space c then trimStart s' else s
  end.

Fixpoint trimEnd (s : string) : string :=
  match s with
  | EmptyString => EmptyString
  | String c s' =>
      match trimEnd s' with
      | EmptyString => if is_trim_space c then EmptyString else String c EmptyString
      | rest => String c rest
      end
  end.

(** [s.trim()] *)
Definition trim (s : string) : string := trimEnd (trimStart s).

(** [s.substring(n)] *)
Fixpoint substring_from (n : nat) (s : string) : string :=
  match n, s with
  | O, _ => s
  | S n', String _ s' => substring_from n' s'
  | S _, EmptyString => EmptyString
  end.

(** [s.split(sep)] for a non-empty separator string: the parts between
    the occurrences of [sep] found from left to right, without overlap.
    [skip] counts the characters of a found separator still to pass. *)
Fixpoint split_str (sep : string) (skip : nat) (s : string) : list string :=
  match s with
  | EmptyString => [EmptyString]
  | String c s' =>
      match skip with
      | S k => split_str sep k s'
      | O =>
          if String.prefix sep s
          then EmptyString :: split_str sep (String.length sep - 1) s'
          else match split_str sep 0 s' with
               | part :: parts => String c part :: parts
               | [] => [String c EmptyString]
               end
      end
  end.

Record useAuthOptions : Type := {
  (** Token(s) allowed to access the route *)
  opt_token : string + list string;
  (** Headers to check for the token *)
  opt_headers : option (list string);
  (** Whether or not to check query. E.g. ?key=xyz *)
  opt_queryKey : option bool;
  (** Allow bearer auth *)
  opt_bearerAuth : option bool
}.

(** What the middleware reads of the Hono context: [c.req.query()] and
    [c.req.header(name)]. *)
Record AuthContext : Type := {
  req_query : string -> option string;
  req_header : string -> option string
}.

(** An optional boolean as a condition. *)
Definition enabled (flag : option bool) : bool :=
  match flag with Some true => true | _ => false end.

(** [tokens.some((t) => t === value)], [value] possibly [undefined]. *)
Definition some_token_is (tokens : list string) (value : option string) : bool :=
  match value with
  | Some v => existsb (fun t => String.eqb t v) tokens
  | None => false
  end.

Definition checkBearer (tokens : list string) (c : AuthContext) : bool :=
  let bearer := "Bearer " in
  match req_header c "Authorization" with
  | None => false
  | Some authHeader =>
      if negb (Str.nonempty authHeader) || negb (String.prefix bearer authHeader)
      then false
      else
        let parts := split_str bearer 0 authHeader in
        if negb (Nat.eqb (length parts) 2) then false
        else
          let bearerToken := trim (substring_from (String.length bearer) authHeader) in
          some_token_is tokens (Some bearerToken)
  end.

(** The list [checkers], each checker by its result. *)
Definition checkers (options : useAuthOptions) (tokens : list string)
    (c : AuthContext) : list bool :=
  ((if enabled (opt_queryKey options)
    then [some_token_is tokens (req_query c "key")] else [])
   ++ match opt_headers options with
      | Some headers =>
          if Nat.ltb 0 (length headers)
          then map (fun headerName => some_token_is tokens (req_header c headerName)) headers
          else []
      | None => []
      end
   ++ (if enabled (opt_bearerAuth options) then [checkBearer tokens c] else []))%list.

Definition useAuth (options : useAuthOptions) (c : AuthContext) (next : M unit)
  : M unit :=
  let token := opt_token options in
  let tokensRaw := match token with inl t => [t] | inr l => l end in
  tokens <- lift (parse "useAuth token" (z_array z_string_min1)
                    (JArr (map JStr tokensRaw))) ;;
  let cs := checkers options tokens c in
  if Nat.eqb (length cs) 0 then
    throw (newHTTPException 500 "no auth methods enabled")
  else if negb (existsb (fun checkAuth => checkAuth) cs) then
    throw (newHTTPException 401 "unauthorized")
  else next.

(** The configured tokens as a list. *)
Definition configured_tokens (options : useAuthOptions) : list string :=
  match opt_token options with inl t => [t] | inr l => l end.

(** A request presents token [t] through one of the enabled methods. *)
Definition presents (options : useAuthOptions) (c : AuthContext) (t : string) : Prop :=
  (enabled (opt_queryKey options) = true /\ req_query c "key" = Some t) \/
  (exists headers h, opt_headers options = Some headers /\ In h headers /\
                     req_header c h = Some t) \/
  (enabled (opt_bearerAuth options) = true /\
   exists rest, req_header c "Authorization" = Some ("Bearer " ++ rest) /\
                Str.includes "Bearer " rest = false /\
                trim rest = t).

(** A configuration and requests for running [useAuth]. *)
Module AuthExample.

Definition options : useAuthOptions :=
  {| opt_token := inr ["secret"; "other"];
     opt_headers := Some ["x-api-key"];
     opt_queryKey := Some true;
     opt_bearerAuth := Some true |}.

Definition no_methods : useAuthOptions :=
  {| opt_token := inl "secret";
     opt_headers := Some [];
     opt_queryKey := None;
     opt_bearerAuth := Some false |}.

Definition empty_token : useAuthOptions :=
  {| opt_token := inr ["secret"; ""];
     opt_headers := Some ["x-api-key"];
     opt_queryKey := Some true;
     opt_bearerAuth := Some true |}.

Definition bearer_request (value : string) : AuthContext :=
  {| req_query := fun _ => None;
     req_header := fun h => if String.eqb h "Authorization" then Some value else None |}.

Definition query_request (key : string) : AuthContext :=
  {| req_query := fun k => if String.eqb k "key" then Some key else None;
     req_header := fun _ => None |}.

End AuthExample.

(* ================================================================= *)
(** * Redacting keys from a URL

    Source: packages/hono-helpers/src/helpers/url.ts *)

(** A URL object: its query as the list of name-value pairs that
    [url.searchParams] iterates over, and the rest of it. *)
Record JsURL : Type := {
  url_without_query : string;
  searchParams : list (string * string)
}.

(** What the function takes from the platform: [new URL(s)] ([None] where
    it throws) and [String.prototype.toLowerCase]. *)
Record UrlPlatform : Type := {
  URL_parse : string -> option JsURL;
  toLowerCase : string -> string
}.

(** [params.set(name, value)] on an existing name: the first pair of that
    name takes the value, the others go. *)
Fixpoint set_first (name value : string) (params : list (string * string))
  : list (string * string) :=
  match params with
  | [] => []
  | (k, v) :: rest =>
      if String.eqb k name
      then (k, value) :: filter (fun p => negb (String.eqb (fst p) name)) rest
      else (k, v) :: set_first name value rest
  end.

(** [params.set(name, value)] *)
Definition URLSearchParams_set (name value : string)
    (params : list (string * string)) : list (string * string) :=
  if existsb (fun p => String.eqb (fst p) name) params
  then set_first name value params
  else (params ++ [(name, value)])%list.

(** [['key', 'apiKey', 'api_key'].includes(key.toLowerCase())] *)
Definition is_redacted_key (U : UrlPlatform) (key : string) : bool :=
  existsb (fun k => String.eqb k (toLowerCase U key)) ["key"; "apiKey"; "api_key"].

(** One turn of the loop. *)
Definition redact_key (U : UrlPlatform) (params : list (string * string))
    (key : string) : list (string * string) :=
  if is_redacted_key U key
  then URLSearchParams_set key "REDACTED" params
  else params.

(** The URL object the function works on: parsed from a string, or the
    clone of the one given. *)
Definition to_URL (U : UrlPlatform) (_url : JsURL + string) : option JsURL :=
  match _url with
  | inr s => URL_parse U s
  | inl u => Some u
  end.

(** The loop runs over [Array.from(url.searchParams)], the pairs as they
    were before the first [set]. *)
Definition redactUrl (U : UrlPlatform) (_url : JsURL + string) : result JsURL :=
  match to_URL U _url with
  | None => Throw (TypeError "Invalid URL")
  | Some url =>
      Ok {| url_without_query := url_without_query url;
            searchParams :=
              fold_left (redact_key U) (map fst (searchParams url))
                (searchParams url) |}
  end.

(** The pairs of a name. *)
Definition pairs_named (name : string) (params : list (string * string))
  : list (string * string) :=
  filter (fun p => String.eqb (fst p) name) params.

(** A platform for running [redactUrl]: lower case on ASCII letters, and a
    parser that knows no URL. *)
Module UrlExample.

Fixpoint ascii_lower (s : string) : string :=
  match s with
  | EmptyString => EmptyString
  | String c s' => String (Regex.to_lower c) (ascii_lower s')
  end.

Definition platform : UrlPlatform :=
  {| URL_parse := fun _ => None; toLowerCase := ascii_lower |}.

Definition params0 : list (string * string) :=
  [("key", "abc"); ("q", "x"); ("Key", "def"); ("apiKey", "s3");
   ("key", "zzz"); ("API_KEY", "k")].

Definition url (params : list (string * string)) : JsURL :=
  {| url_without_query := "https://example.com/path"; searchParams := params |}.

End UrlExample.

(** More requests for the Access middleware: the documents of [Example]
    and a header that names another algorithm. *)
Module Example2.

Import Example.

Definition key1 : AccessKey :=
  {| key_kid := kid1; key_kty := "RSA"; key_alg := "RS256";
     key_use := "sig"; key_e := "AQAB"; key_n := "modulus" |}.

Definition user_payload : AccessPayload :=
  UserPayload
    {| user_common :=
         {| type := "app"; exp := inject_Z 1700003600;
            iat := inject_Z 1699999000; iss := domain |};
       user_aud := [aud1; aud2];
       user_nbf := inject_Z 1699999940;
       user_email := "user@example.com";
       user_identity_nonce := "nonce";
       user_sub := "123e4567-e89b-42d3-a456-426614174000";
       user_country := "US" |}.

Definition P0 : Platform := platform "certs".

Definition none_header : json :=
  JObj [("kid", JStr kid1); ("alg", JStr "none")].

Definition platform2 : Platform :=
  {| atob := fun s => Some s;
     JSON_parse := fun text => member text (("hdrnone", none_header) :: documents);
     zod_uuid := Regex.test uuid_format;
     fetch := fetch (platform "certs");
     importKey_ok := fun _ => true;
     verify_ok := fun _ signature _ => String.eqb signature "goodsig";
     Date_now := now_ms;
     URL_canParse := fun base => negb (String.prefix "https://xn--" base) |}.

End Example2.

(* ================================================================= *)
(** * Properties *)

(** ** The matcher decides the language of a pattern *)

Module RegexFacts.

Import Regex.

Lemma append_nil_r (s : string) : s ++ "" = s.
Proof. induction s as [|c s IH]; simpl; [reflexivity | now rewrite IH]. Qed.

Lemma append_assoc (a b c : string) : (a ++ b) ++ c = a ++ (b ++ c).
Proof. induction a as [|x a IH]; simpl; [reflexivity | now rewrite IH]. Qed.

Lemma append_eq_nil (a b : string) : a ++ b = "" -> a = "" /\ b = "".
Proof. destruct a; simpl; [auto | discriminate]. Qed.

Lemma matches_nil_nullable r s : matches r s -> s = "" -> nullable r = true.
Proof.
  induction 1; intros E; simpl; try reflexivity; try discriminate.
  - apply append_eq_nil in E as [E1 E2].
    now rewrite IHmatches1, IHmatches2.
  - now rewrite IHmatches.
  - rewrite IHmatches by assumption. apply orb_true_r.
Qed.

Lemma nullable_matches r : nullable r = true -> matches r "".
Proof.
  induction r; simpl; intros H; try discriminate.
  - constructor.
  - apply andb_true_iff in H as [H1 H2].
    change "" with ("" ++ ""). constructor; auto.
  - apply orb_true_iff in H as [H|H]; [apply MAltL | apply MAltR]; auto.
  - constructor.
Qed.

(** A non-empty match of a star starts with a non-empty match of its body. *)
Lemma star_cons r0 s0 :
  matches r0 s0 ->
  forall r c s, r0 = Star r -> s0 = String c s ->
  exists s1 s2, s = s1 ++ s2 /\ matches r (String c s1) /\ matches (Star r) s2.
Proof.
  induction 1; intros r' c' s' Er Es; try discriminate.
  injection Er as ->.
  destruct s1 as [|x s1]; simpl in Es.
  - eapply IHmatches2; eauto.
  - injection Es as -> <-. exists s1, s2. auto.
Qed.

Lemma seq_inv r1 r2 s :
  matches (Seq r1 r2) s ->
  exists s1 s2, s = s1 ++ s2 /\ matches r1 s1 /\ matches r2 s2.
Proof. inversion 1; subst; eauto. Qed.

Lemma deriv_sound c r : forall s, matches (deriv c r) s -> matches r (String c s).
Proof.
  induction r; simpl; intros s H.
  - inversion H.
  - inversion H.
  - destruct (p c) eqn:E; inversion H; subst. now constructor.
  - destruct (nullable r1) eqn:N.
    + inversion H; subst.
      * apply seq_inv in H3 as (s1 & s2 & -> & H1 & H2).
        change (String c (s1 ++ s2)) with (String c s1 ++ s2).
        constructor; auto.
      * change (String c s) with ("" ++ String c s).
        constructor; auto. now apply nullable_matches.
    + apply seq_inv in H as (s1 & s2 & -> & H1 & H2).
      change (String c (s1 ++ s2)) with (String c s1 ++ s2).
      constructor; auto.
  - inversion H; subst; [apply MAltL | apply MAltR]; auto.
  - apply seq_inv in H as (s1 & s2 & -> & H1 & H2).
    change (String c (s1 ++ s2)) with (String c s1 ++ s2).
    constructor; auto.
Qed.

Lemma deriv_complete c r : forall s, matches r (String c s) -> matches (deriv c r) s.
Proof.
  induction r; simpl; intros s H.
  - inversion H.
  - inversion H.
  - inversion H; subst.
    match goal with Hc : p _ = true |- _ => rewrite Hc end. constructor.
  - apply seq_inv in H as (s1 & s2 & E & H1 & H2).
    destruct s1 as [|x s1]; simpl in E.
    + subst s2. rewrite (matches_nil_nullable _ _ H1 eq_refl).
      apply MAltR. auto.
    + injection E as <- ->.
      destruct (nullable r1); [apply MAltL|]; constructor; auto.
  - inversion H; subst; [apply MAltL | apply MAltR]; auto.
  - destruct (star_cons _ _ H _ _ _ eq_refl eq_refl) as (s1 & s2 & -> & H1 & H2).
    constructor; auto.
Qed.

Lemma test_matches r s : test r s = true <-> matches r s.
Proof.
  revert r. induction s as [|c s IH]; intros r; simpl.
  - split; [apply nullable_matches | intros H; exact (matches_nil_nullable _ _ H eq_refl)].
  - rewrite IH. split; [apply deriv_sound | apply deriv_complete].
Qed.

(** *** The shapes the module's patterns use *)

Lemma star_class_all p r0 s :
  matches r0 s -> r0 = Star (Class p) -> Str.all p s = true.
Proof.
  induction 1; intros E; try discriminate; [reflexivity|].
  injection E as ->. inversion H; subst. simpl.
  match goal with Hc : p _ = true |- _ => rewrite Hc end. simpl. auto.
Qed.

Lemma all_star_class p s : Str.all p s = true -> matches (Star (Class p)) s.
Proof.
  induction s as [|c s IH]; simpl; intros H; [constructor|].
  apply andb_true_iff in H as [Hc Hs].
  change (String c s) with (String c "" ++ s).
  constructor; [now constructor | auto].
Qed.

(** [[class]+] matches the non-empty strings over the class. *)
Lemma plus_class p s :
  matches (Plus (Class p)) s <-> Str.nonempty s = true /\ Str.all p s = true.
Proof.
  unfold Plus. split.
  - intros H. apply seq_inv in H as (s1 & s2 & -> & H1 & H2).
    inversion H1; subst. simpl.
    match goal with Hc : p _ = true |- _ => rewrite Hc end.
    split; [reflexivity|]. exact (star_class_all _ _ _ H2 eq_refl).
  - intros [Hn Ha]. destruct s as [|c s]; [discriminate|].
    simpl in Ha. apply andb_true_iff in Ha as [Hc Hs].
    change (String c s) with (String c "" ++ s).
    constructor; [now constructor | now apply all_star_class].
Qed.

(** A literal matches itself only. *)
Lemma lit_matches l s : matches (Lit l) s <-> s = l.
Proof.
  revert s. induction l as [|c l IH]; simpl; intros s.
  - split; [inversion 1; reflexivity | intros ->; constructor].
  - split.
    + intros H. apply seq_inv in H as (s1 & s2 & -> & H1 & H2).
      inversion H1; subst.
      match goal with Hc : Ascii.eqb _ _ = true |- _ => apply Ascii.eqb_eq in Hc as -> end.
      apply IH in H2 as ->. reflexivity.
    + intros ->. change (String c l) with (String c "" ++ l).
      constructor; [constructor; apply Ascii.eqb_refl | now apply IH].
Qed.

End RegexFacts.

(** ** The token and team patterns, as shapes of strings *)

Module Shapes.

Import Regex RegexFacts.

Lemma all_impl (p q : ascii -> bool) s :
  (forall c, p c = true -> q c = true) -> Str.all p s = true -> Str.all q s = true.
Proof.
  intros Hpq. induction s as [|c s IH]; simpl; [auto|].
  intros H. apply andb_true_iff in H as [Hc Hs].
  rewrite (Hpq _ Hc). simpl. auto.
Qed.

Definition not_sep (sep c : ascii) : bool := negb (Ascii.eqb c sep).

Lemma split_no_sep sep s :
  Str.all (not_sep sep) s = true -> Str.split sep s = [s].
Proof.
  unfold not_sep. induction s as [|c s IH]; simpl; [reflexivity|].
  intros H. apply andb_true_iff in H as [Hc Hs].
  apply negb_true_iff in Hc. rewrite Hc, (IH Hs). reflexivity.
Qed.

Lemma split_app_sep sep a rest :
  Str.all (not_sep sep) a = true ->
  Str.split sep (a ++ String sep rest) = a :: Str.split sep rest.
Proof.
  unfold not_sep. induction a as [|c a IH]; simpl.
  - intros _. now rewrite Ascii.eqb_refl.
  - intros H. apply andb_true_iff in H as [Hc Ha].
    apply negb_true_iff in Hc. rewrite Hc, (IH Ha). reflexivity.
Qed.

(** No character of a token segment is the separator. *)
Lemma jwt_char_not_dot c :
  ignore_case Zod.jwt_char c = true -> not_sep "." c = true.
Proof.
  unfold not_sep. intros H.
  destruct (Ascii.eqb_spec c "."); [subst c; vm_compute in H; discriminate | reflexivity].
Qed.

(** A string accepted by the token pattern is three non-empty segments
    over the segment alphabet, joined by dots. *)
Lemma accessJWT_shape s :
  test Zod.accessJWTRegex s = true ->
  exists a b c,
    s = a ++ "." ++ b ++ "." ++ c /\
    (Str.nonempty a = true /\ Str.all (ignore_case Zod.jwt_char) a = true) /\
    (Str.nonempty b = true /\ Str.all (ignore_case Zod.jwt_char) b = true) /\
    (Str.nonempty c = true /\ Str.all (ignore_case Zod.jwt_char) c = true).
Proof.
  intros H. apply test_matches in H. unfold Zod.accessJWTRegex in H.
  apply seq_inv in H as (a & r1 & -> & Ha & H).
  apply seq_inv in H as (d1 & r2 & -> & Hd1 & H).
  apply seq_inv in H as (b & r3 & -> & Hb & H).
  apply seq_inv in H as (d2 & c & -> & Hd2 & Hc).
  apply lit_matches in Hd1 as ->. apply lit_matches in Hd2 as ->.
  apply plus_class in Ha, Hb, Hc.
  exists a, b, c. auto.
Qed.

Lemma accessJWT_three_parts s :
  test Zod.accessJWTRegex s = true ->
  exists a b c,
    Str.split "." s = [a; b; c] /\
    Str.nonempty a = true /\ Str.nonempty b = true /\ Str.nonempty c = true.
Proof.
  intros H.
  destruct (accessJWT_shape _ H) as (a & b & c & -> & [Na Aa] & [Nb Ab] & [Nc Ac]).
  exists a, b, c. repeat split; try assumption.
  change (a ++ "." ++ b ++ "." ++ c)
    with (a ++ String "." (b ++ String "." c)).
  rewrite split_app_sep by (eapply all_impl; [apply jwt_char_not_dot | assumption]).
  rewrite split_app_sep by (eapply all_impl; [apply jwt_char_not_dot | assumption]).
  rewrite split_no_sep by (eapply all_impl; [apply jwt_char_not_dot | assumption]).
  reflexivity.
Qed.

(** [extractJWTFromRequest] returns the header exactly when it is present
    and matches the token pattern. *)
Lemma extractJWT_Ok req jwt :
  extractJWTFromRequest req = Ok jwt <->
  headers_get req "Cf-Access-Jwt-Assertion" = Some jwt /\
  test Zod.accessJWTRegex jwt = true.
Proof.
  unfold extractJWTFromRequest, Zod.parse, Zod.AccessJWT, Zod.z_regex,
    Zod.z_string, header_value.
  destruct (headers_get req _) as [s|]; [|split; [discriminate | intros [? _]; discriminate]].
  destruct (test Zod.accessJWTRegex s) eqn:T; split.
  - intros [= ->]. auto.
  - intros [[= ->] _]. reflexivity.
  - discriminate.
  - intros [[= ->] T']. congruence.
Qed.

Lemma extractJWT_Throw req e :
  extractJWTFromRequest req = Throw e -> e = ZodError "AccessJWT".
Proof.
  unfold extractJWTFromRequest, Zod.parse.
  destruct (Zod.AccessJWT _); [discriminate | now intros [= <-]].
Qed.

(** The team pattern: non-empty, lower-case letters, digits and hyphens. *)
Lemma accessTeam_shape team :
  test Zod.accessTeamRegex team = true <->
  Str.nonempty team = true /\ Str.all Zod.team_char team = true.
Proof. rewrite test_matches. apply plus_class. Qed.

(** The domain built from an accepted team always passes its own pattern. *)
Lemma teamDomain_accepted team :
  test Zod.accessTeamRegex team = true ->
  test Zod.accessTeamDomainRegex (teamDomain team) = true.
Proof.
  rewrite !test_matches. intros H.
  unfold Zod.accessTeamDomainRegex, teamDomain.
  constructor; [now apply lit_matches|].
  constructor; [assumption | now apply lit_matches].
Qed.

(** [[class]{n}] matches the strings of length [n] over the class. *)
Lemma rep_class p n : forall s,
  matches (Rep n (Class p)) s <-> String.length s = n /\ Str.all p s = true.
Proof.
  induction n as [|n IH]; simpl; intros s.
  - split.
    + inversion 1. auto.
    + intros [L _]. destruct s; [constructor | discriminate].
  - split.
    + intros H. apply seq_inv in H as (s1 & s2 & -> & H1 & H2).
      inversion H1; subst. apply IH in H2 as [L A]. simpl.
      match goal with Hc : p _ = true |- _ => rewrite Hc end.
      rewrite L. auto.
    + intros [L A]. destruct s as [|c s]; [discriminate|].
      simpl in L, A. apply andb_true_iff in A as [Hc Hs].
      change (String c s) with (String c "" ++ s).
      constructor; [now constructor|]. apply IH. split; [congruence | assumption].
Qed.

(** The audience pattern: 64 lower-case hexadecimal digits. *)
Lemma hex64_shape s :
  test Zod.hex64Regex s = true <->
  String.length s = 64 /\ Str.all Zod.hex_char s = true.
Proof. rewrite test_matches. apply rep_class. Qed.

End Shapes.

(** ** The runs of [validateAccessJWT] *)

Module Validate.

Section Runs.

Variable P : Platform.

Lemma bind_lift_Ok {A B} (a : A) (f : A -> M B) : bind (lift (Ok a)) f = f a.
Proof. unfold bind, lift. destruct (f a). reflexivity. Qed.

Lemma bind_lift_Throw {A B} e (f : A -> M B) :
  bind (lift (Throw e)) f = (Throw e, []).
Proof. reflexivity. Qed.

Lemma bind_emit {B} ev (f : unit -> M B) :
  bind (emit ev) f = (fst (f tt), ev :: snd (f tt)).
Proof. unfold bind, emit. destruct (f tt). reflexivity. Qed.

Lemma bind_do_fetch {B} url (f : HttpResponse -> M B) :
  bind (do_fetch P url) f =
  match fetch P url with
  | Some r => (fst (f r), EFetch url :: snd (f r))
  | None => (Throw (TypeError "fetch failed"), [EFetch url])
  end.
Proof.
  unfold do_fetch, bind, emit, ret, throw.
  destruct (fetch P url); [destruct (f h)|]; reflexivity.
Qed.

Lemma bind_importKey {B} jwk (f : CryptoKey -> M B) :
  bind (crypto_subtle_importKey P jwk) f =
  if importKey_ok P jwk
  then (fst (f {| imported := jwk |}), EImportKey jwk :: snd (f {| imported := jwk |}))
  else (Throw (DOMException "DataError"), [EImportKey jwk]).
Proof.
  unfold crypto_subtle_importKey, bind, emit, ret, throw.
  destruct (importKey_ok P jwk); [destruct (f _)|]; reflexivity.
Qed.

Lemma bind_verify {B} key sg data (f : bool -> M B) :
  bind (crypto_subtle_verify P key sg data) f =
  (fst (f (verify_ok P key sg data)),
   EVerify key sg data :: snd (f (verify_ok P key sg data))).
Proof.
  unfold crypto_subtle_verify, bind, emit, ret.
  destruct (f _). reflexivity.
Qed.

(** Every run, stage by stage: where it stops, with which error, and
    after which platform calls. *)
Lemma validateAccessJWT_run req dom aud :
  validateAccessJWT P req dom aud =
  match extractJWTFromRequest req with
  | Throw e => (Throw e, [])
  | Ok jwt =>
  match Str.split "." jwt with
  | [header; payload; signature] =>
  match decode_segment P header with
  | Throw e => (Throw e, [])
  | Ok headerJson =>
  match parse "AccessHeader" AccessHeader_schema headerJson with
  | Throw e => (Throw e, [])
  | Ok accessHeader =>
  if negb (URL_canParse P dom) then (Throw (TypeError "Invalid URL"), []) else
  match fetch P (certs_url dom) with
  | None => (Throw (TypeError "fetch failed"), [EFetch (certs_url dom)])
  | Some response =>
  match JSON_parse_bytes P (body response) with
  | Throw e => (Throw e, [EFetch (certs_url dom)])
  | Ok certsJson =>
  match parse "AccessCertsResponse" AccessCertsResponse_schema certsJson with
  | Throw e => (Throw e, [EFetch (certs_url dom)])
  | Ok certs =>
  match find_key (hdr_kid accessHeader) (keys certs) with
  | None => (Throw (Error "Could not find matching signing key."),
             [EFetch (certs_url dom)])
  | Some jwk =>
  if negb (importKey_ok P jwk) then
    (Throw (DOMException "DataError"), [EFetch (certs_url dom); EImportKey jwk])
  else
  match decode_segment P payload with
  | Throw e => (Throw e, [EFetch (certs_url dom); EImportKey jwk])
  | Ok payloadJson =>
  match parse "AccessPayload" (AccessPayload_schema (zod_uuid P)) payloadJson with
  | Throw e => (Throw e, [EFetch (certs_url dom); EImportKey jwk])
  | Ok payloadObj =>
  match claim_checks P dom aud payloadObj with
  | Some e => (Throw e, [EFetch (certs_url dom); EImportKey jwk])
  | None =>
  match base64URLDecode P signature with
  | Throw e => (Throw e, [EFetch (certs_url dom); EImportKey jwk])
  | Ok signatureBytes =>
      let key := {| imported := jwk |} in
      let data := asciiToUint8Array (header ++ "." ++ payload) in
      (if verify_ok P key signatureBytes data then Ok (jwt, payloadObj)
       else Throw (Error "Could not verify JWT."),
       [EFetch (certs_url dom); EImportKey jwk; EVerify key signatureBytes data])
  end end end end end end end end end end
  | _ => (Throw (Error "JWT does not have three parts."), [])
  end end.
Proof.
  unfold validateAccessJWT, decode_segment, find_key, certs_url, claim_checks, new_URL.
  destruct (extractJWTFromRequest req) as [jwt|e];
    [rewrite bind_lift_Ok | reflexivity].
  destruct (Str.split "." jwt) as [|h [|p [|s [|x l]]]]; try reflexivity.
  destruct (base64URLDecode P h) as [hb|e];
    [rewrite bind_lift_Ok | reflexivity].
  destruct (JSON_parse_bytes P hb) as [hj|e];
    [rewrite bind_lift_Ok | reflexivity].
  destruct (parse "AccessHeader" AccessHeader_schema hj) as [hdr|e];
    [rewrite bind_lift_Ok | reflexivity].
  cbv zeta.
  destruct (URL_canParse P dom); [rewrite bind_lift_Ok | reflexivity]. cbn [negb].
  rewrite bind_do_fetch.
  destruct (fetch P _) as [resp|]; [|reflexivity].
  destruct (JSON_parse_bytes P (body resp)) as [cj|e];
    [rewrite bind_lift_Ok | reflexivity].
  destruct (parse "AccessCertsResponse" AccessCertsResponse_schema cj) as [certs|e];
    [rewrite bind_lift_Ok | reflexivity].
  destruct (find _ (keys certs)) as [jwk|]; [|reflexivity].
  rewrite bind_importKey.
  destruct (importKey_ok P jwk); [|reflexivity].
  destruct (base64URLDecode P p) as [pb|e];
    [rewrite bind_lift_Ok | reflexivity].
  destruct (JSON_parse_bytes P pb) as [pj|e];
    [rewrite bind_lift_Ok | reflexivity].
  destruct (parse "AccessPayload" _ pj) as [po|e];
    [rewrite bind_lift_Ok | reflexivity].
  destruct (negb (String.eqb _ _)); [reflexivity|].
  destruct (negb (includesAud po aud)); [reflexivity|].
  destruct (Qle_bool _ _); [reflexivity|].
  destruct (truthy _ && ceil_lt _ _); [reflexivity|].
  destruct (base64URLDecode P s) as [sb|e];
    [rewrite bind_lift_Ok | reflexivity].
  rewrite bind_verify.
  destruct (verify_ok P _ sb _); reflexivity.
Qed.

(** *** Runs, read through what the request decodes to *)

Ltac split_run :=
  repeat match goal with
         | |- context [match ?x with _ => _ end] =>
             lazymatch x with
             | context [match _ with _ => _ end] => fail
             | _ => idtac
             end;
             destruct x eqn:?; cbn [negb]; try (intros; congruence)
         end.

Ltac open_run :=
  rewrite validateAccessJWT_run;
  unfold signing_key, token_header, token_payload, fetched_certs, new_URL,
    signature_verifies, token_parts, parse, certs_url, outcome, calls.

(** Without three segments nothing is decoded and nothing is called. *)
Lemma run_no_parts req dom aud :
  token_parts req = None ->
  exists e, validateAccessJWT P req dom aud = (Throw e, []).
Proof.
  open_run. split_run; intros; eauto.
Qed.

(** Without an importable key for the header's [kid] the run throws
    and never verifies. *)
Lemma run_no_key req dom aud :
  signing_key P req dom = None ->
  is_throw (outcome (validateAccessJWT P req dom aud)) = true /\
  count_calls is_verify (calls (validateAccessJWT P req dom aud)) = 0.
Proof.
  open_run. split_run; intros; split; reflexivity.
Qed.

(** Without a payload that parses the run throws and never verifies. *)
Lemma run_no_payload req dom aud :
  token_payload P req = None ->
  is_throw (outcome (validateAccessJWT P req dom aud)) = true /\
  count_calls is_verify (calls (validateAccessJWT P req dom aud)) = 0.
Proof.
  open_run. split_run; intros; split; reflexivity.
Qed.

(** With a key and a payload the run reaches the claim checks. *)
Lemma run_reached req dom aud jwk p :
  signing_key P req dom = Some jwk ->
  token_payload P req = Some p ->
  exists jwt header payload signature,
    headers_get req "Cf-Access-Jwt-Assertion" = Some jwt /\
    token_parts req = Some (header, payload, signature) /\
    validateAccessJWT P req dom aud =
    match claim_checks P dom aud p with
    | Some e => (Throw e, [EFetch (certs_url dom); EImportKey jwk])
    | None =>
        match base64URLDecode P signature with
        | Throw e => (Throw e, [EFetch (certs_url dom); EImportKey jwk])
        | Ok signatureBytes =>
            let key := {| imported := jwk |} in
            let data := asciiToUint8Array (header ++ "." ++ payload) in
            (if verify_ok P key signatureBytes data then Ok (jwt, p)
             else Throw (Error "Could not verify JWT."),
             [EFetch (certs_url dom); EImportKey jwk;
              EVerify key signatureBytes data])
        end
    end.
Proof.
  intros K Q.
  destruct (extractJWTFromRequest req) as [jwt|e] eqn:E;
    [|unfold token_payload, token_parts in Q; rewrite E in Q; discriminate].
  pose proof (proj1 (Shapes.extractJWT_Ok req jwt) E) as [Hh _].
  destruct (token_parts req) as [[[h pl] s]|] eqn:T;
    [|unfold token_payload in Q; rewrite T in Q; discriminate].
  exists jwt, h, pl, s. split; [assumption|]. split; [reflexivity|].
  revert K Q T. open_run. rewrite E.
  split_run; intros; try congruence.
Qed.

(** Without a parsed certs response the run throws before any
    Web Crypto call. *)
Lemma run_no_certs req dom aud :
  fetched_certs P dom = None ->
  is_throw (outcome (validateAccessJWT P req dom aud)) = true /\
  count_calls is_importKey (calls (validateAccessJWT P req dom aud)) = 0 /\
  count_calls is_verify (calls (validateAccessJWT P req dom aud)) = 0.
Proof.
  open_run. split_run; intros; repeat split; reflexivity.
Qed.

(** The header's [kid] missing from the fetched key set. *)
Lemma run_unknown_kid req dom aud h certs :
  token_header P req = Some h ->
  fetched_certs P dom = Some certs ->
  find_key (hdr_kid h) (keys certs) = None ->
  validateAccessJWT P req dom aud =
  (Throw (Error "Could not find matching signing key."), [EFetch (certs_url dom)]).
Proof.
  open_run. split_run; intros; congruence.
Qed.

(** The catch block: whatever was thrown, the middleware throws the
    generic rejection. *)
Lemma middleware_rejects dom aud c next :
  is_throw (outcome (validateAccessJWT P (req_raw c) dom aud)) = true ->
  outcome (middleware P dom aud c next) = Throw unauthorized.
Proof.
  unfold middleware, report.
  destruct (hasValidJWT (req_raw c)); [|reflexivity].
  destruct (validateAccessJWT P (req_raw c) dom aud) as [[x|e] t];
    [discriminate|]. intros _.
  destruct (var_logger c), (var_sentry c); reflexivity.
Qed.

(** A header that is absent or off the token pattern is rejected on
    the spot. *)
Lemma middleware_invalid_header dom aud c next :
  hasValidJWT (req_raw c) = false ->
  middleware P dom aud c next = (Throw unauthorized, []).
Proof. unfold middleware. intros ->. reflexivity. Qed.

(** What construction returns. *)
Lemma useCloudflareAccess_accepts team audience :
  Regex.test accessTeamRegex team = true ->
  Regex.test hex64Regex audience = true ->
  useCloudflareAccess P team audience = Ok (middleware P (teamDomain team) audience).
Proof.
  intros T A. unfold useCloudflareAccess, parse, AccessTeam, AccessTeamDomain,
    AccessAudience, z_regex, z_string.
  rewrite T, (Shapes.teamDomain_accepted _ T), A. reflexivity.
Qed.

Lemma useCloudflareAccess_rejects_team team audience :
  Regex.test accessTeamRegex team = false ->
  useCloudflareAccess P team audience = Throw (ZodError "AccessTeam").
Proof.
  intros T. unfold useCloudflareAccess, parse, AccessTeam, z_regex, z_string.
  rewrite T. reflexivity.
Qed.

Lemma useCloudflareAccess_rejects_audience team audience :
  Regex.test hex64Regex audience = false ->
  is_throw (useCloudflareAccess P team audience) = true.
Proof.
  intros A. unfold useCloudflareAccess, parse, AccessTeam, AccessTeamDomain,
    AccessAudience, z_regex, z_string.
  rewrite A. destruct (Regex.test accessTeamRegex team); [|reflexivity].
  destruct (Regex.test accessTeamDomainRegex _); reflexivity.
Qed.

Lemma useCloudflareAccess_Ok team audience mw :
  useCloudflareAccess P team audience = Ok mw ->
  mw = middleware P (teamDomain team) audience /\
  Regex.test accessTeamRegex team = true /\
  Regex.test hex64Regex audience = true.
Proof.
  intros H.
  destruct (Regex.test accessTeamRegex team) eqn:T;
    [|rewrite (useCloudflareAccess_rejects_team _ _ T) in H; discriminate].
  destruct (Regex.test hex64Regex audience) eqn:A.
  - rewrite (useCloudflareAccess_accepts _ _ T A) in H.
    injection H as <-. auto.
  - pose proof (useCloudflareAccess_rejects_audience team _ A) as R.
    rewrite H in R. discriminate.
Qed.

End Runs.

End Validate.

(* ================================================================= *)
(** * The claims *)

Import Validate.

Lemma certs_schema_needs_keys o :
  member "keys" o = Some (JArr []) ->
  AccessCertsResponse_schema (Some (JObj o)) = None.
Proof.
  intros H. unfold AccessCertsResponse_schema, z_object, z_array_min1, z_array.
  rewrite H. reflexivity.
Qed.

Lemma certs_schema_needs_public_certs o :
  member "public_certs" o = Some (JArr []) ->
  AccessCertsResponse_schema (Some (JObj o)) = None.
Proof.
  intros H. unfold AccessCertsResponse_schema, z_object.
  destruct (z_array_min1 AccessKey_schema _); [|reflexivity].
  destruct (PublicCERT_schema _); [|reflexivity].
  unfold z_array_min1, z_array. rewrite H. reflexivity.
Qed.

(** C1. Whatever made validation fail (a missing header, a malformed token,
    a schema violation, no matching key, a wrong issuer or audience, an
    expired or not yet valid token, a signature mismatch), the middleware
    built by [useCloudflareAccess] throws the same HTTP 401 exception with
    message "unauthorized": two failing requests, even in two states of the
    world, give equal outcomes. *)
Theorem C1_failures_collapse_to_unauthorized :
  forall (P1 P2 : Platform) team audience mw1 mw2 c1 c2 next1 next2,
    useCloudflareAccess P1 team audience = Ok mw1 ->
    useCloudflareAccess P2 team audience = Ok mw2 ->
    is_throw (outcome (validateAccessJWT P1 (req_raw c1) (teamDomain team) audience)) = true ->
    is_throw (outcome (validateAccessJWT P2 (req_raw c2) (teamDomain team) audience)) = true ->
    outcome (mw1 c1 next1) = Throw (HTTPException 401 "unauthorized") /\
    outcome (mw2 c2 next2) = Throw (HTTPException 401 "unauthorized") /\
    outcome (mw1 c1 next1) = outcome (mw2 c2 next2).
Proof.
  intros P1 P2 team audience mw1 mw2 c1 c2 next1 next2 U1 U2 F1 F2.
  apply useCloudflareAccess_Ok in U1 as [-> _], U2 as [-> _].
  pose proof (middleware_rejects P1 _ _ c1 next1 F1) as R1.
  pose proof (middleware_rejects P2 _ _ c2 next2 F2) as R2.
  rewrite R1, R2. repeat split.
Qed.

(** C3. When the header's [kid] names no key of the fetched key set,
    [validateAccessJWT] throws "Could not find matching signing key." having
    made the certs fetch only: [crypto.subtle.importKey] and
    [crypto.subtle.verify] are never called. *)
Theorem C3_unknown_kid_never_verifies :
  forall (P : Platform) req dom aud h certs,
    token_header P req = Some h ->
    fetched_certs P dom = Some certs ->
    find_key (hdr_kid h) (keys certs) = None ->
    outcome (validateAccessJWT P req dom aud)
      = Throw (Error "Could not find matching signing key.") /\
    calls (validateAccessJWT P req dom aud) = [EFetch (certs_url dom)] /\
    count_calls is_verify (calls (validateAccessJWT P req dom aud)) = 0.
Proof.
  intros P req dom aud h certs H C K.
  rewrite (run_unknown_kid P req dom aud h certs H C K). repeat split.
Qed.

(** C4. A request whose header is missing, or whose token does not split
    into exactly three parts at the dots, fails with no platform call at
    all, in [validateAccessJWT] and in the middleware: the certs fetch is
    never issued. *)
Theorem C4_malformed_token_makes_no_fetch :
  forall (P : Platform) dom aud c next,
    match headers_get (req_raw c) "Cf-Access-Jwt-Assertion" with
    | Some token => length (Str.split "." token) <> 3
    | None => True
    end ->
    (exists e, validateAccessJWT P (req_raw c) dom aud = (Throw e, [])) /\
    middleware P dom aud c next = (Throw unauthorized, []) /\
    count_calls is_fetch (calls (validateAccessJWT P (req_raw c) dom aud)) = 0 /\
    count_calls is_fetch (calls (middleware P dom aud c next)) = 0.
Proof.
  intros P dom aud c next H.
  assert (E : exists e, extractJWTFromRequest (req_raw c) = Throw e).
  { destruct (extractJWTFromRequest (req_raw c)) as [jwt|e] eqn:E; [|eauto].
    apply Shapes.extractJWT_Ok in E as [Hh T]. rewrite Hh in H.
    destruct (Shapes.accessJWT_three_parts _ T) as (x & y & z & S & _).
    rewrite S in H. now contradiction H. }
  destruct E as [e E].
  assert (V : exists e, validateAccessJWT P (req_raw c) dom aud = (Throw e, [])).
  { apply run_no_parts. unfold token_parts. now rewrite E. }
  assert (W : middleware P dom aud c next = (Throw unauthorized, [])).
  { apply middleware_invalid_header. unfold hasValidJWT. now rewrite E. }
  split; [exact V|]. split; [exact W|].
  destruct V as [e' V]. rewrite V, W. split; reflexivity.
Qed.

(** C9. When the certs response is not JSON, or violates the response
    schema, or has an empty [keys] or an empty [public_certs] array, no key
    set is resolved: [validateAccessJWT] throws without any Web Crypto call
    and the middleware rejects the request with the generic 401. *)
Theorem C9_bad_key_set_fails_validation :
  forall (P : Platform) dom aud c next response,
    fetch P (certs_url dom) = Some response ->
    match JSON_parse P (body response) with
    | None => True
    | Some j =>
        AccessCertsResponse_schema (Some j) = None \/
        exists o, j = JObj o /\
                  (member "keys" o = Some (JArr []) \/
                   member "public_certs" o = Some (JArr []))
    end ->
    fetched_certs P dom = None /\
    is_throw (outcome (validateAccessJWT P (req_raw c) dom aud)) = true /\
    count_calls is_importKey (calls (validateAccessJWT P (req_raw c) dom aud)) = 0 /\
    count_calls is_verify (calls (validateAccessJWT P (req_raw c) dom aud)) = 0 /\
    outcome (middleware P dom aud c next) = Throw unauthorized.
Proof.
  intros P dom aud c next response F B.
  assert (N : fetched_certs P dom = None).
  { unfold fetched_certs, new_URL. unfold certs_url in F.
    destruct (URL_canParse P dom); [|reflexivity]. rewrite F.
    unfold JSON_parse_bytes. destruct (JSON_parse P (body response)) as [j|]; [|reflexivity].
    destruct B as [B | (o & -> & [K | K])].
    - exact B.
    - now apply certs_schema_needs_keys.
    - now apply certs_schema_needs_public_certs. }
  destruct (run_no_certs P (req_raw c) dom aud N) as (T & I & V).
  repeat split; try assumption.
  now apply middleware_rejects.
Qed.

(** C10. A string the [AccessJWT] pattern accepts splits at the dots into
    exactly three non-empty parts, so no run of [validateAccessJWT] throws
    "JWT does not have three parts.". *)
Theorem C10_three_parts_error_unreachable :
  (forall s, Regex.test accessJWTRegex s = true ->
     exists a b c, Str.split "." s = [a; b; c] /\
       Str.nonempty a = true /\ Str.nonempty b = true /\ Str.nonempty c = true) /\
  (forall (P : Platform) req dom aud,
     outcome (validateAccessJWT P req dom aud)
       <> Throw (Error "JWT does not have three parts.")).
Proof.
  split; [exact Shapes.accessJWT_three_parts|].
  intros P req dom aud. rewrite validateAccessJWT_run.
  destruct (extractJWTFromRequest req) as [jwt|e] eqn:E.
  - apply Shapes.extractJWT_Ok in E as [_ T].
    destruct (Shapes.accessJWT_three_parts _ T) as (x & y & z & -> & _).
    unfold decode_segment, base64URLDecode, JSON_parse_bytes, parse, claim_checks, outcome.
    repeat match goal with
           | |- context [match ?x with _ => _ end] =>
               lazymatch x with
               | context [match _ with _ => _ end] => fail
               | _ => idtac
               end;
               destruct x eqn:?; cbn [negb fst]; try discriminate; try congruence
           end.
  - apply Shapes.extractJWT_Throw in E as ->. discriminate.
Qed.

(** ** Claim checks *)

Lemma origin_certs_url dom : origin (resolved_URL "/cdn-cgi/access/certs" dom) = dom.
Proof. reflexivity. Qed.

Lemma floor_ge_iff (e : Q) (n : Z) :
  Qle_bool e (inject_Z n) = false <-> (inject_Z n < e)%Q.
Proof.
  split.
  - intros H. apply Qnot_le_lt. intros L. apply Qle_bool_iff in L. congruence.
  - intros L. destruct (Qle_bool e (inject_Z n)) eqn:B; [|reflexivity].
    apply Qle_bool_iff in B. exfalso. exact (Qlt_not_le _ _ L B).
Qed.

Lemma claim_checks_wrong_issuer P dom aud p :
  iss (payload_common p) <> dom ->
  claim_checks P dom aud p = Some (Error "JWT issuer is incorrect.").
Proof.
  intros H. unfold claim_checks. rewrite origin_certs_url.
  apply String.eqb_neq in H. rewrite H. reflexivity.
Qed.

Lemma claim_checks_pass_issuer P dom aud p :
  claim_checks P dom aud p = None -> iss (payload_common p) = dom.
Proof.
  unfold claim_checks. rewrite origin_certs_url.
  destruct (String.eqb _ dom) eqn:E; [intros _; now apply String.eqb_eq | discriminate].
Qed.

Lemma z_string_min1_nonempty v s : z_string_min1 v = Some s -> Str.nonempty s = true.
Proof.
  unfold z_string_min1, z_string. destruct v as [[]|]; try discriminate.
  destruct (Str.nonempty s0) eqn:N; [now intros [= <-] | discriminate].
Qed.

(** A parsed user payload carries a non-empty [identity_nonce]. *)
Lemma user_schema_nonce uuid v u :
  UserAccessPayload_schema uuid v = Some u ->
  Str.nonempty (user_identity_nonce u) = true.
Proof.
  unfold UserAccessPayload_schema, z_object. intros H.
  destruct v as [[]|]; try discriminate.
  repeat match type of H with
         | context [match ?x with _ => _ end] =>
             lazymatch x with
             | context [match _ with _ => _ end] => fail
             | _ => idtac
             end;
             destruct x eqn:?; try discriminate H
         end.
  injection H as <-. simpl. eauto using z_string_min1_nonempty.
Qed.

Lemma token_payload_user_nonce P req u :
  token_payload P req = Some (UserPayload u) ->
  Str.nonempty (user_identity_nonce u) = true.
Proof.
  unfold token_payload, AccessPayload_schema. intros H.
  destruct (token_parts req) as [[[h pl] s]|]; [|discriminate].
  destruct (decode_segment P pl) as [j|]; [|discriminate].
  destruct (UserAccessPayload_schema (zod_uuid P) (Some j)) as [u'|] eqn:U.
  - injection H as <-. eauto using user_schema_nonce.
  - destruct (ServiceAuthAccessPayload_schema (Some j)); discriminate.
Qed.

Ltac split_outcome :=
  unfold outcome, base64URLDecode;
  repeat match goal with
         | |- context [match ?x with _ => _ end] =>
             lazymatch x with
             | context [match _ with _ => _ end] => fail
             | _ => idtac
             end;
             destruct x eqn:?; cbn [negb fst andb]
         end.

(** A run that resolves a key has built its certs URL. *)
Lemma signing_key_new_URL P req dom jwk :
  signing_key P req dom = Some jwk ->
  new_URL P "/cdn-cgi/access/certs" dom = Ok (resolved_URL "/cdn-cgi/access/certs" dom).
Proof.
  unfold signing_key, fetched_certs, new_URL.
  destruct (token_header P req); [|discriminate].
  destruct (URL_canParse P dom); [reflexivity | discriminate].
Qed.

(** C2. For the middleware built from a team, the key fetch goes to the
    certs URL of [https://<team>.cloudflareaccess.com], a string computed
    from the configuration alone; every token [validateAccessJWT] accepts
    has that origin as its [iss]; and a token whose payload names another
    issuer is rejected with no call of [crypto.subtle.verify]. *)
Theorem C2_issuer_is_the_configured_team :
  forall (P : Platform) team audience mw req,
    useCloudflareAccess P team audience = Ok mw ->
    mw = middleware P ("https://" ++ team ++ ".cloudflareaccess.com") audience /\
    (forall jwt p,
       outcome (validateAccessJWT P req (teamDomain team) audience) = Ok (jwt, p) ->
       new_URL P "/cdn-cgi/access/certs" (teamDomain team)
         = Ok (resolved_URL "/cdn-cgi/access/certs" (teamDomain team)) /\
       iss (payload_common p)
         = origin (resolved_URL "/cdn-cgi/access/certs" (teamDomain team)) /\
       iss (payload_common p) = "https://" ++ team ++ ".cloudflareaccess.com" /\
       filter is_fetch (calls (validateAccessJWT P req (teamDomain team) audience))
         = [EFetch ("https://" ++ team ++ ".cloudflareaccess.com" ++ "/cdn-cgi/access/certs")]) /\
    (forall p,
       token_payload P req = Some p ->
       iss (payload_common p) <> teamDomain team ->
       is_throw (outcome (validateAccessJWT P req (teamDomain team) audience)) = true /\
       count_calls is_verify
         (calls (validateAccessJWT P req (teamDomain team) audience)) = 0).
Proof.
  intros P team audience mw req U.
  apply useCloudflareAccess_Ok in U as [-> _].
  split; [reflexivity|]. split.
  - intros jwt p H.
    destruct (signing_key P req (teamDomain team)) as [jwk|] eqn:K;
      [|destruct (run_no_key P req (teamDomain team) audience K) as [T _];
        rewrite H in T; discriminate].
    destruct (token_payload P req) as [p'|] eqn:Q;
      [|destruct (run_no_payload P req (teamDomain team) audience Q) as [T _];
        rewrite H in T; discriminate].
    destruct (run_reached P req (teamDomain team) audience _ _ K Q)
      as (jwt' & h & pl & s & _ & _ & R).
    rewrite R in H |- *. clear R.
    destruct (claim_checks P (teamDomain team) audience p') eqn:C; [discriminate H|].
    apply claim_checks_pass_issuer in C.
    destruct (base64URLDecode P s) as [sb|]; [|discriminate H].
    cbv zeta in H |- *. unfold outcome, calls in *. cbn [fst snd] in *.
    destruct (verify_ok P _ sb _); [|discriminate H].
    injection H as <- <-.
    rewrite origin_certs_url.
    split; [exact (signing_key_new_URL P req _ _ K)|].
    repeat split; try exact C.
    unfold certs_url, resolved_URL, href, teamDomain. cbn [filter is_fetch].
    now rewrite !RegexFacts.append_assoc.
  - intros p Q I.
    destruct (signing_key P req (teamDomain team)) as [jwk|] eqn:K;
      [|exact (run_no_key P req (teamDomain team) audience K)].
    destruct (run_reached P req (teamDomain team) audience _ _ K Q)
      as (jwt' & h & pl & s & _ & _ & R).
    rewrite R, (claim_checks_wrong_issuer P _ audience _ I). split; reflexivity.
Qed.

(** C5. The expiry check is strict on the floored clock: with the earlier
    checks passed, the run gets past "JWT has expired." exactly when
    [floor(Date.now() / 1000) < exp]; and whatever else holds, a token whose
    [exp] is the floored clock or earlier is never accepted. *)
Theorem C5_expiry_is_strict :
  forall (P : Platform) req dom aud p,
    token_payload P req = Some p ->
    now_floor P = (Date_now P / 1000)%Z /\
    ((exp (payload_common p) <= inject_Z (now_floor P))%Q ->
       is_throw (outcome (validateAccessJWT P req dom aud)) = true) /\
    (forall jwk,
       signing_key P req dom = Some jwk ->
       iss (payload_common p) = dom ->
       includesAud p aud = true ->
       (outcome (validateAccessJWT P req dom aud) <> Throw (Error "JWT has expired.")
        <-> (inject_Z (now_floor P) < exp (payload_common p))%Q)).
Proof.
  intros P req dom aud p Q.
  split; [reflexivity|]. split.
  - intros L. apply Qle_bool_iff in L. unfold now_floor in L.
    destruct (signing_key P req dom) as [jwk|] eqn:K;
      [|exact (proj1 (run_no_key P req dom aud K))].
    destruct (run_reached P req dom aud _ _ K Q) as (jwt & h & pl & s & _ & _ & R).
    rewrite R. unfold claim_checks. cbv zeta. rewrite L.
    destruct (negb (String.eqb _ _)); [reflexivity|].
    destruct (negb (includesAud p aud)); reflexivity.
  - intros jwk K I A.
    destruct (run_reached P req dom aud _ _ K Q) as (jwt & h & pl & s & _ & _ & R).
    rewrite R. unfold claim_checks. cbv zeta.
    rewrite origin_certs_url, I, String.eqb_refl, A. cbn [negb].
    rewrite <- floor_ge_iff. fold (now_floor P).
    destruct (Qle_bool (exp (payload_common p)) (inject_Z (now_floor P))) eqn:B.
    + unfold outcome. cbn [fst]. split; [intros N; now contradiction N | discriminate].
    + split; [reflexivity|]. intros _. split_outcome; discriminate.
Qed.

(** C6. [includesAud] holds for a user payload exactly when the configured
    audience is one of the entries of its [aud] array, and for a
    service-auth payload exactly when its [aud] string is the configured
    audience; in a run that passed the issuer check, "JWT audience is
    incorrect." is thrown exactly when [includesAud] is false. *)
Theorem C6_audience_membership_or_equality :
  (forall u aud, includesAud (UserPayload u) aud = true <-> In aud (user_aud u)) /\
  (forall s aud, includesAud (ServiceAuthPayload s) aud = true <-> svc_aud s = aud) /\
  (forall (P : Platform) req dom aud p jwk,
     signing_key P req dom = Some jwk ->
     token_payload P req = Some p ->
     iss (payload_common p) = dom ->
     (outcome (validateAccessJWT P req dom aud) = Throw (Error "JWT audience is incorrect.")
      <-> includesAud p aud = false)).
Proof.
  split; [|split].
  - intros u aud. unfold includesAud. cbn [payload_aud].
    rewrite existsb_exists. split.
    + intros (x & Hx & E). apply String.eqb_eq in E. now subst x.
    + intros H. exists aud. split; [assumption | apply String.eqb_refl].
  - intros s aud. unfold includesAud. cbn [payload_aud]. apply String.eqb_eq.
  - intros P req dom aud p jwk K Q I.
    destruct (run_reached P req dom aud _ _ K Q) as (jwt & h & pl & s & _ & _ & R).
    rewrite R. unfold claim_checks. cbv zeta.
    rewrite origin_certs_url, I, String.eqb_refl. cbn [negb].
    destruct (includesAud p aud).
    + cbn [negb]. split; [|discriminate]. split_outcome; discriminate.
    + split; reflexivity.
Qed.

(** C7. The not-before check belongs to the user variant alone: a parsed
    payload has a truthy [identity_nonce] exactly when it is a user
    payload; with the earlier checks passed, "JWT is not yet valid." is
    thrown exactly for a user payload with [ceil(Date.now() / 1000) < nbf];
    and a service-auth payload, which has no [nbf], is returned as soon as
    the signature verifies. *)
Theorem C7_not_before_only_for_users :
  forall (P : Platform) req dom aud p jwk,
    signing_key P req dom = Some jwk ->
    token_payload P req = Some p ->
    iss (payload_common p) = dom ->
    includesAud p aud = true ->
    (inject_Z (now_floor P) < exp (payload_common p))%Q ->
    (truthy (payload_identity_nonce p) = true <-> exists u, p = UserPayload u) /\
    (outcome (validateAccessJWT P req dom aud) = Throw (Error "JWT is not yet valid.")
     <-> exists u, p = UserPayload u /\ (inject_Z (now_ceil P) < user_nbf u)%Q) /\
    (forall s, p = ServiceAuthPayload s ->
       payload_nbf p = None /\
       (signature_verifies P req jwk = true ->
        exists jwt, headers_get req "Cf-Access-Jwt-Assertion" = Some jwt /\
                    outcome (validateAccessJWT P req dom aud) = Ok (jwt, p))).
Proof.
  intros P req dom aud p jwk K Q I A E.
  destruct (run_reached P req dom aud _ _ K Q) as (jwt & h & pl & s & Hh & T & R).
  rewrite R. unfold claim_checks. cbv zeta.
  rewrite origin_certs_url, I, String.eqb_refl, A. cbn [negb].
  apply floor_ge_iff in E. unfold now_floor in E. rewrite E.
  destruct p as [u|sv].
  - pose proof (token_payload_user_nonce P req _ Q) as N.
    cbn [payload_identity_nonce payload_nbf truthy ceil_lt]. rewrite N. cbn [andb].
    split; [split; eauto|]. split; [|intros sv' [=]].
    fold (now_ceil P).
    destruct (Qle_bool (user_nbf u) (inject_Z (now_ceil P))) eqn:B; cbn [negb].
    + split.
      * split_outcome; discriminate.
      * intros (u' & [= <-] & L). apply floor_ge_iff in L. congruence.
    + split; [|reflexivity]. intros _. exists u. split; [reflexivity|].
      now apply floor_ge_iff.
  - cbn [payload_identity_nonce payload_nbf truthy ceil_lt andb].
    split; [split; [discriminate | intros (u & [=])]|].
    split.
    + split; [split_outcome; discriminate | intros (u & [=] & _)].
    + intros sv' _. split; [reflexivity|].
      unfold signature_verifies. rewrite T. intros V.
      exists jwt. split; [assumption|].
      destruct (base64URLDecode P s) as [sb|]; [|discriminate].
      cbv zeta. rewrite V. reflexivity.
Qed.

(** C8 (amended). Construction accepts a team exactly when it is a
    non-empty string of lower-case letters, digits and hyphens (the
    audience being well-formed); any other team, one with an upper-case
    letter or an underscore or the empty one, makes [useCloudflareAccess]
    itself throw the team's ZodError, so no middleware exists to handle a
    request. *)
Theorem C8_team_checked_at_construction :
  forall (P : Platform) team audience,
    ((Str.nonempty team = false \/ Str.all team_char team = false) <->
     useCloudflareAccess P team audience = Throw (ZodError "AccessTeam")) /\
    (Regex.test hex64Regex audience = true ->
     ((exists mw, useCloudflareAccess P team audience = Ok mw) <->
      (Str.nonempty team = true /\ Str.all team_char team = true))) /\
    (forall mw, useCloudflareAccess P team audience = Ok mw ->
                mw = middleware P (teamDomain team) audience).
Proof.
  intros P team audience.
  split; [|split].
  - split.
    + intros H. apply useCloudflareAccess_rejects_team.
      destruct (Regex.test accessTeamRegex team) eqn:T; [|reflexivity].
      destruct (proj1 (Shapes.accessTeam_shape team) T) as [N L].
      destruct H; congruence.
    + intros H. destruct (Regex.test accessTeamRegex team) eqn:T.
      * exfalso. destruct (Regex.test hex64Regex audience) eqn:A.
        -- rewrite (useCloudflareAccess_accepts P _ _ T A) in H. discriminate.
        -- revert H. unfold useCloudflareAccess, parse, AccessTeam, AccessTeamDomain,
             AccessAudience, z_regex, z_string.
           rewrite T, (Shapes.teamDomain_accepted _ T), A. discriminate.
      * destruct (Str.nonempty team) eqn:N; [|now left].
        destruct (Str.all team_char team) eqn:L; [|now right].
        pose proof (proj2 (Shapes.accessTeam_shape team) (conj N L)). congruence.
  - intros A. split.
    + intros [mw H]. apply useCloudflareAccess_Ok in H as (_ & T & _).
      now apply Shapes.accessTeam_shape.
    + intros H. apply Shapes.accessTeam_shape in H.
      eexists. now apply useCloudflareAccess_accepts.
  - intros mw H. now apply useCloudflareAccess_Ok in H as [-> _].
Qed.

(** C8, as stated, fails: "Team" is made of alphanumeric characters only,
    and construction throws on it. *)
Lemma C8_counterexample :
  spec_team_ok "Team" = true /\
  useCloudflareAccess (Example.platform "certs") "Team" Example.aud1
    = Throw (ZodError "AccessTeam").
Proof. split; reflexivity. Qed.

(* ================================================================= *)
(** * The claims on concrete requests

    Each theorem above, applied to the test platform of [Example]: team
    [myteam], the clock at 1700000000 seconds, a key set with one key. *)

Module Witness.

Import Example.

Definition P0 : Platform := platform "certs".

(** A missing header and an expired token are rejected alike. *)
Lemma C1_witness :
  outcome (middleware P0 (teamDomain team) aud1 (context None) next)
  = outcome (middleware P0 (teamDomain team) aud1
               (context (Some "hdr.userexp.goodsig")) next).
Proof.
  refine (proj2 (proj2 (C1_failures_collapse_to_unauthorized
                          P0 P0 team aud1
                          (middleware P0 (teamDomain team) aud1)
                          (middleware P0 (teamDomain team) aud1)
                          (context None) (context (Some "hdr.userexp.goodsig"))
                          next next _ _ _ _))); reflexivity.
Defined.

(** An accepted token names the configured team; one that names another
    team is rejected unverified. *)
Lemma C2_witness :
  filter is_fetch
    (calls (validateAccessJWT P0 (request (Some "hdr.user.goodsig")) (teamDomain team) aud1))
  = [EFetch "https://myteam.cloudflareaccess.com/cdn-cgi/access/certs"] /\
  count_calls is_verify
    (calls (validateAccessJWT P0 (request (Some "hdr.useriss.goodsig")) (teamDomain team) aud1))
  = 0.
Proof.
  split.
  - destruct (C2_issuer_is_the_configured_team
                P0 team aud1 (middleware P0 (teamDomain team) aud1)
                (request (Some "hdr.user.goodsig")) eq_refl) as (_ & A & _).
    eapply A. vm_compute. reflexivity.
  - destruct (C2_issuer_is_the_configured_team
                P0 team aud1 (middleware P0 (teamDomain team) aud1)
                (request (Some "hdr.useriss.goodsig")) eq_refl) as (_ & _ & B).
    eapply B; [vm_compute; reflexivity | vm_compute; discriminate].
Defined.

(** The header names [kid2], the key set holds [kid1] only. *)
Lemma C3_witness :
  outcome (validateAccessJWT P0 (request (Some "hdr2.user.goodsig")) domain aud1)
  = Throw (Error "Could not find matching signing key.").
Proof.
  eapply (C3_unknown_kid_never_verifies
            P0 (request (Some "hdr2.user.goodsig")) domain aud1);
    vm_compute; reflexivity.
Defined.

(** A token of two segments. *)
Lemma C4_witness :
  middleware P0 domain aud1 (context (Some "hdr.user")) next = (Throw unauthorized, []).
Proof.
  apply (C4_malformed_token_makes_no_fetch P0 domain aud1 (context (Some "hdr.user")) next).
  vm_compute. discriminate.
Defined.

(** [exp] equal to the floored clock. *)
Lemma C5_witness :
  is_throw (outcome (validateAccessJWT P0 (request (Some "hdr.userexp.goodsig")) domain aud1))
  = true.
Proof.
  eapply (C5_expiry_is_strict P0 (request (Some "hdr.userexp.goodsig")) domain aud1).
  - vm_compute. reflexivity.
  - vm_compute. discriminate.
Defined.

(** A service-auth token for another audience. *)
Lemma C6_witness :
  outcome (validateAccessJWT P0 (request (Some "hdr.svc2.goodsig")) domain aud1)
  = Throw (Error "JWT audience is incorrect.").
Proof.
  eapply (proj2 (proj2 C6_audience_membership_or_equality)
            P0 (request (Some "hdr.svc2.goodsig")) domain aud1);
    vm_compute; reflexivity.
Defined.

(** A service-auth token with a good signature is returned. *)
Lemma C7_witness :
  exists jwt,
    headers_get (request (Some "hdr.svc.goodsig")) "Cf-Access-Jwt-Assertion" = Some jwt /\
    exists p,
      outcome (validateAccessJWT P0 (request (Some "hdr.svc.goodsig")) domain aud1)
      = Ok (jwt, p).
Proof.
  edestruct (C7_not_before_only_for_users
               P0 (request (Some "hdr.svc.goodsig")) domain aud1) as (_ & _ & S);
    [vm_compute; reflexivity .. |].
  edestruct S as (_ & V); [reflexivity|].
  destruct (V eq_refl) as (jwt & Hh & O).
  exists jwt. split; [exact Hh|]. eexists. exact O.
Defined.

(** The team [myteam] is accepted. *)
Lemma C8_witness :
  exists mw, useCloudflareAccess P0 team aud1 = Ok mw.
Proof.
  apply (proj1 (proj2 (C8_team_checked_at_construction P0 team aud1)) eq_refl).
  split; reflexivity.
Defined.

(** The certs endpoint serves a document with no keys. *)
Lemma C9_witness :
  outcome (middleware (platform "nokeys") domain aud1
             (context (Some "hdr.user.goodsig")) next)
  = Throw unauthorized.
Proof.
  eapply (C9_bad_key_set_fails_validation (platform "nokeys") domain aud1
            (context (Some "hdr.user.goodsig")) next).
  - vm_compute. reflexivity.
  - right. eexists. split; [vm_compute; reflexivity|]. left. reflexivity.
Defined.

Lemma C10_witness :
  exists a b c, Str.split "." "hdr.user.goodsig" = [a; b; c] /\
    Str.nonempty a = true /\ Str.nonempty b = true /\ Str.nonempty c = true.
Proof.
  apply (proj1 C10_three_parts_error_unreachable). reflexivity.
Defined.

End Witness.

(* ================================================================= *)
(** * Further properties of the Access middleware *)

Import Validate.

Ltac case_innermost :=
  repeat match goal with
         | |- context [match ?x with _ => _ end] =>
             lazymatch x with
             | context [match _ with _ => _ end] => fail
             | _ => idtac
             end;
             destruct x eqn:?; cbn [negb fst snd andb]
         end.

Lemma count_zero_not_In (p : event -> bool) (l : list event) ev :
  count_calls p l = 0 -> In ev l -> p ev = false.
Proof.
  unfold count_calls. induction l as [|x l IH]; simpl; [contradiction|].
  destruct (p x) eqn:E; [discriminate|].
  intros Z [<- | H]; auto.
Qed.

(** When the payload is a parsed one, the claim checks pass exactly when
    the four conditions of the source hold. *)
Lemma claim_checks_None_iff P req dom aud p :
  token_payload P req = Some p ->
  claim_checks P dom aud p = None <->
  iss (payload_common p) = dom /\
  includesAud p aud = true /\
  (inject_Z (now_floor P) < exp (payload_common p))%Q /\
  (forall u, p = UserPayload u -> (user_nbf u <= inject_Z (now_ceil P))%Q).
Proof.
  intros T. unfold claim_checks. cbv zeta. rewrite origin_certs_url.
  fold (now_floor P). fold (now_ceil P). split.
  - destruct (String.eqb _ dom) eqn:I; [|discriminate]. cbn [negb].
    destruct (includesAud p aud); [|discriminate]. cbn [negb].
    destruct (Qle_bool _ (inject_Z (now_floor P))) eqn:E; [discriminate|].
    intros H. split; [now apply String.eqb_eq|]. split; [reflexivity|].
    split; [now apply floor_ge_iff|].
    intros u ->. pose proof (token_payload_user_nonce P req u T) as N.
    cbn [payload_identity_nonce payload_nbf truthy ceil_lt] in H.
    rewrite N in H. cbn [andb] in H.
    destruct (Qle_bool (user_nbf u) (inject_Z (now_ceil P))) eqn:B;
      [now apply Qle_bool_iff
      | unfold now_ceil in B; try rewrite B in H; cbn [negb] in H; discriminate H].
  - intros (I & A & E & N). rewrite I, String.eqb_refl, A. cbn [negb].
    apply floor_ge_iff in E. rewrite E.
    destruct p as [u|s]; cbn [payload_identity_nonce payload_nbf truthy ceil_lt].
    + specialize (N u eq_refl). apply Qle_bool_iff in N.
      unfold now_ceil in N. rewrite N.
      cbn [negb]. now rewrite andb_false_r.
    + reflexivity.
Qed.

(** X1. [validateAccessJWT] returns a token and a payload exactly when:
    the header is that token, its payload segment parses to that payload,
    the key set has an importable key for the header's [kid] under which
    the signature verifies, the issuer is the team domain, the audience is
    included, the floored clock is before [exp], and for a user payload the
    clock rounded up has reached [nbf]. *)
Theorem X1_accepted_iff :
  forall (P : Platform) req dom aud jwt p,
    outcome (validateAccessJWT P req dom aud) = Ok (jwt, p) <->
    headers_get req "Cf-Access-Jwt-Assertion" = Some jwt /\
    token_payload P req = Some p /\
    (exists jwk, signing_key P req dom = Some jwk /\
                 signature_verifies P req jwk = true) /\
    iss (payload_common p) = dom /\
    includesAud p aud = true /\
    (inject_Z (now_floor P) < exp (payload_common p))%Q /\
    (forall u, p = UserPayload u -> (user_nbf u <= inject_Z (now_ceil P))%Q).
Proof.
  intros P req dom aud jwt p. split.
  - intros H.
    destruct (signing_key P req dom) as [jwk|] eqn:K;
      [|destruct (run_no_key P req dom aud K) as [T _]; rewrite H in T; discriminate].
    destruct (token_payload P req) as [p'|] eqn:Q;
      [|destruct (run_no_payload P req dom aud Q) as [T _]; rewrite H in T; discriminate].
    destruct (run_reached P req dom aud _ _ K Q) as (jwt' & h & pl & s & Hh & T & R).
    rewrite R in H. clear R.
    destruct (claim_checks P dom aud p') eqn:C; [discriminate H|].
    destruct (base64URLDecode P s) as [sb|] eqn:B; [|discriminate H].
    cbv zeta in H. unfold outcome in H. cbn [fst] in H.
    destruct (verify_ok P _ sb _) eqn:V; [|discriminate H].
    injection H as <- <-.
    split; [assumption|]. split; [reflexivity|]. split.
    + exists jwk. split; [reflexivity|].
      unfold signature_verifies. now rewrite T, B.
    + now apply (claim_checks_None_iff P req dom aud p' Q).
  - intros (Hh & Q & (jwk & K & V) & C).
    apply (claim_checks_None_iff P req dom aud p Q) in C.
    destruct (run_reached P req dom aud _ _ K Q) as (jwt' & h & pl & s & Hh' & T & R).
    rewrite R, C. unfold signature_verifies in V. rewrite T in V.
    destruct (base64URLDecode P s) as [sb|]; [|discriminate].
    cbv zeta. rewrite V. unfold outcome. cbn [fst]. congruence.
Qed.

(** X2. Whatever the request, a run of [validateAccessJWT] makes its
    platform calls in one order and at most once each: the certs fetch,
    always to [<team domain>/cdn-cgi/access/certs], then [importKey], then
    [verify] with the imported key; it never logs and never fetches a URL
    taken from the token. *)
Theorem X2_calls_are_a_prefix_of_fetch_import_verify :
  forall (P : Platform) req dom aud,
    calls (validateAccessJWT P req dom aud) = [] \/
    calls (validateAccessJWT P req dom aud)
      = [EFetch (dom ++ "/cdn-cgi/access/certs")] \/
    (exists jwk,
       calls (validateAccessJWT P req dom aud)
       = [EFetch (dom ++ "/cdn-cgi/access/certs"); EImportKey jwk]) \/
    (exists jwk sg data,
       calls (validateAccessJWT P req dom aud)
       = [EFetch (dom ++ "/cdn-cgi/access/certs"); EImportKey jwk;
          EVerify {| imported := jwk |} sg data]).
Proof.
  intros P req dom aud. rewrite validateAccessJWT_run.
  unfold calls, certs_url, resolved_URL, href.
  case_innermost; cbv zeta; cbn [snd]; eauto 8.
Qed.

(** X3. [crypto.subtle.verify] is reached only at the end of the chain:
    when it is called, the key is the entry of the fetched key set whose
    [kid] is the header's, the data are the first two segments of the token
    joined by a dot, the signature is the decoded third segment, and the
    payload has already passed the issuer, audience, expiry and not-before
    checks. *)
Theorem X3_verify_only_after_all_checks :
  forall (P : Platform) req dom aud key sg data,
    In (EVerify key sg data) (calls (validateAccessJWT P req dom aud)) ->
    exists hdr p header payload signature,
      token_header P req = Some hdr /\
      signing_key P req dom = Some (imported key) /\
      key_kid (imported key) = hdr_kid hdr /\
      token_parts req = Some (header, payload, signature) /\
      data = header ++ "." ++ payload /\
      base64URLDecode P signature = Ok sg /\
      token_payload P req = Some p /\
      iss (payload_common p) = dom /\
      includesAud p aud = true /\
      (inject_Z (now_floor P) < exp (payload_common p))%Q /\
      (forall u, p = UserPayload u -> (user_nbf u <= inject_Z (now_ceil P))%Q).
Proof.
  intros P req dom aud key sg data H.
  destruct (signing_key P req dom) as [jwk|] eqn:K;
    [|destruct (run_no_key P req dom aud K) as [_ Z];
      pose proof (count_zero_not_In _ _ _ Z H); discriminate].
  destruct (token_payload P req) as [p|] eqn:Q;
    [|destruct (run_no_payload P req dom aud Q) as [_ Z];
      pose proof (count_zero_not_In _ _ _ Z H); discriminate].
  destruct (run_reached P req dom aud _ _ K Q) as (jwt & h & pl & s & Hh & T & R).
  rewrite R in H. clear R.
  destruct (claim_checks P dom aud p) eqn:C.
  { unfold calls in H. cbn in H. destruct H as [H|[H|[]]]; discriminate. }
  destruct (base64URLDecode P s) as [sb|] eqn:B.
  2:{ unfold calls in H. cbn in H. destruct H as [H|[H|[]]]; discriminate. }
  unfold calls in H. cbn in H.
  destruct H as [H|[H|[H|[]]]]; try discriminate.
  injection H as <- <- <-. cbn [imported].
  apply (claim_checks_None_iff P req dom aud p Q) in C.
  assert (HK : exists hdr, token_header P req = Some hdr /\ key_kid jwk = hdr_kid hdr).
  { revert K. unfold signing_key.
    destruct (token_header P req) as [hdr|]; [|discriminate].
    destruct (fetched_certs P dom) as [certs|]; [|discriminate].
    destruct (find_key (hdr_kid hdr) (keys certs)) as [k|] eqn:F; [|discriminate].
    destruct (importKey_ok P k); [|discriminate].
    intros [= ->]. exists hdr. split; [reflexivity|].
    apply find_some in F as [_ F]. now apply String.eqb_eq. }
  destruct HK as (hdr & TH & KK).
  exists hdr, p, h, pl, s. repeat split; try assumption; try reflexivity; apply C.
Qed.

(** X4. A header segment that decodes to JSON whose [alg] is not the
    string "RS256" (a missing [alg], "none", "HS256") is rejected by the
    header schema before any platform call: nothing is fetched, imported or
    verified for it. *)
Theorem X4_other_algorithms_rejected_offline :
  forall (P : Platform) req dom aud header payload signature j,
    token_parts req = Some (header, payload, signature) ->
    decode_segment P header = Ok j ->
    (forall o, j = JObj o -> member "alg" o <> Some (JStr "RS256")) ->
    validateAccessJWT P req dom aud = (Throw (ZodError "AccessHeader"), []).
Proof.
  intros P req dom aud h pl s j T D A.
  assert (S : AccessHeader_schema (Some j) = None).
  { unfold AccessHeader_schema, z_object. destruct j as [| | | |l|o]; try reflexivity.
    destruct (AccessKid (member "kid" o)); [|reflexivity].
    specialize (A o eq_refl).
    unfold AccessAlgorithm, z_literal, z_string.
    destruct (member "alg" o) as [[| | |a| |]|]; try reflexivity.
    destruct (String.eqb a "RS256") eqn:E; [|reflexivity].
    apply String.eqb_eq in E. subst a. now contradiction A. }
  rewrite validateAccessJWT_run. revert T. unfold token_parts.
  destruct (extractJWTFromRequest req) as [jwt|]; [|discriminate].
  destruct (Str.split "." jwt) as [|a [|b [|c [|d l]]]]; try discriminate.
  intros [= -> -> ->]. rewrite D. unfold parse. rewrite S. reflexivity.
Qed.

(** Under the [i] flag the token class is the base64url alphabet. *)
Lemma jwt_class_is_base64url c :
  Regex.ignore_case jwt_char c = base64url_char c.
Proof. destruct c as [[] [] [] [] [] [] [] []]; reflexivity. Qed.

Lemma all_ext (p q : ascii -> bool) s :
  (forall c, p c = q c) -> Str.all p s = Str.all q s.
Proof.
  intros E. induction s as [|c s IH]; simpl; [reflexivity|]. now rewrite E, IH.
Qed.

Lemma accessJWT_accepts a b c :
  Str.nonempty a = true /\ Str.all (Regex.ignore_case jwt_char) a = true ->
  Str.nonempty b = true /\ Str.all (Regex.ignore_case jwt_char) b = true ->
  Str.nonempty c = true /\ Str.all (Regex.ignore_case jwt_char) c = true ->
  Regex.test accessJWTRegex (a ++ "." ++ b ++ "." ++ c) = true.
Proof.
  intros Ha Hb Hc. apply RegexFacts.test_matches. unfold accessJWTRegex.
  apply Regex.MSeq; [now apply RegexFacts.plus_class|].
  apply Regex.MSeq; [now apply RegexFacts.lit_matches|].
  apply Regex.MSeq; [now apply RegexFacts.plus_class|].
  apply Regex.MSeq; [now apply RegexFacts.lit_matches|].
  now apply RegexFacts.plus_class.
Qed.

(** X5. The pre-check [hasValidJWT] passes exactly for a header that is
    present and made of three non-empty base64url segments
    ([[A-Za-z0-9_-]]) joined by dots: the [i] flag adds the upper-case
    letters and nothing else, and padding, spaces or a fourth segment fail
    it. *)
Theorem X5_hasValidJWT_iff_three_base64url_segments :
  forall req,
    hasValidJWT req = true <->
    exists a b c,
      headers_get req "Cf-Access-Jwt-Assertion" = Some (a ++ "." ++ b ++ "." ++ c) /\
      (Str.nonempty a = true /\ Str.all base64url_char a = true) /\
      (Str.nonempty b = true /\ Str.all base64url_char b = true) /\
      (Str.nonempty c = true /\ Str.all base64url_char c = true).
Proof.
  intros req. unfold hasValidJWT.
  assert (EQ : forall s, Str.all (Regex.ignore_case jwt_char) s = Str.all base64url_char s)
    by (intros s; apply all_ext, jwt_class_is_base64url).
  split.
  - destruct (extractJWTFromRequest req) as [jwt|] eqn:E; [intros _|discriminate].
    apply Shapes.extractJWT_Ok in E as [Hh T].
    destruct (Shapes.accessJWT_shape _ T) as (a & b & c & -> & Ha & Hb & Hc).
    exists a, b, c. rewrite <- (EQ a), <- (EQ b), <- (EQ c). auto.
  - intros (a & b & c & Hh & Ha & Hb & Hc).
    rewrite <- (EQ a) in Ha. rewrite <- (EQ b) in Hb. rewrite <- (EQ c) in Hc.
    pose proof (accessJWT_accepts a b c Ha Hb Hc) as T.
    rewrite (proj2 (Shapes.extractJWT_Ok req _) (conj Hh T)). reflexivity.
Qed.

(** X6. When validation succeeds the middleware logs nothing and runs the
    rest of the chain once: its outcome is the outcome of [next], so an
    error thrown downstream reaches the caller as it is, not as a 401. *)
Theorem X6_accepted_request_runs_next :
  forall (P : Platform) dom aud c next jwt p,
    outcome (validateAccessJWT P (req_raw c) dom aud) = Ok (jwt, p) ->
    middleware P dom aud c next =
    (outcome next, (calls (validateAccessJWT P (req_raw c) dom aud) ++ calls next)%list).
Proof.
  intros P dom aud c next jwt p H. unfold middleware.
  destruct (hasValidJWT (req_raw c)) eqn:V.
  - destruct (validateAccessJWT P (req_raw c) dom aud) as [[x|e] t];
      [|discriminate]. destruct next as [r t'].
    unfold outcome, calls, try_catch, bind, ret. cbn.
    now rewrite !app_nil_r.
  - exfalso. unfold hasValidJWT in V.
    destruct (extractJWTFromRequest (req_raw c)) as [|e] eqn:E; [discriminate|].
    rewrite validateAccessJWT_run, E in H. discriminate.
Qed.

(** X7. When a well-formed token fails validation, the middleware hands
    the thrown error to the logger (message "validateAccessJWT failed " and
    the error's message) and to Sentry, each only if set, in that order
    after the calls of the validation; then it throws the 401.  The rest of
    the chain does not appear in the result: [next] is never run. *)
Theorem X7_rejected_request_is_reported_not_forwarded :
  forall (P : Platform) dom aud c next e,
    hasValidJWT (req_raw c) = true ->
    outcome (validateAccessJWT P (req_raw c) dom aud) = Throw e ->
    middleware P dom aud c next =
    (Throw unauthorized,
     (calls (validateAccessJWT P (req_raw c) dom aud) ++ reported c e)%list).
Proof.
  intros P dom aud c next e V H. unfold middleware, report, reported. rewrite V.
  destruct (validateAccessJWT P (req_raw c) dom aud) as [[x|e'] t]; [discriminate|].
  unfold outcome in H. cbn in H. injection H as ->.
  destruct (var_logger c), (var_sentry c); reflexivity.
Qed.

Lemma z_string_min1_is_string v s :
  z_string_min1 v = Some s -> v = Some (JStr s).
Proof.
  unfold z_string_min1, z_string. destruct v as [[]|]; try discriminate.
  destruct (Str.nonempty s0); [now intros [= ->] | discriminate].
Qed.

(** X8. The two payload shapes exclude each other: no value parses both
    as a user payload and as a service-auth payload (the first needs a
    non-empty [identity_nonce], the second needs it absent), so the order
    of the options in the union decides nothing. *)
Theorem X8_payload_variants_are_exclusive :
  forall uuid v,
    UserAccessPayload_schema uuid v = None \/
    ServiceAuthAccessPayload_schema v = None.
Proof.
  intros uuid v.
  destruct (UserAccessPayload_schema uuid v) as [u|] eqn:U; [right | now left].
  assert (N : exists o n, v = Some (JObj o) /\ member "identity_nonce" o = Some (JStr n)).
  { revert U. unfold UserAccessPayload_schema, z_object.
    destruct v as [[| | | | |o]|]; try discriminate.
    destruct (AccessPayloadCommon_shape o); [|discriminate].
    destruct (z_array AccessAudience _); [|discriminate].
    destruct (z_number_min1 _); [|discriminate].
    destruct (z_string_min1 (member "email" o)); [|discriminate].
    destruct (negb _); [discriminate|].
    destruct (z_string_min1 (member "identity_nonce" o)) as [n|] eqn:E; [|discriminate].
    intros _. exists o, n. split; [reflexivity|]. now apply z_string_min1_is_string. }
  destruct N as (o & n & -> & N).
  unfold ServiceAuthAccessPayload_schema, z_object.
  destruct (AccessPayloadCommon_shape o); [|reflexivity].
  destruct (AccessAudience _); [|reflexivity].
  destruct (z_regex commonNameRegex _); [|reflexivity].
  destruct (z_literal "" _); [|reflexivity].
  rewrite N. reflexivity.
Qed.

Lemma replace_char_length c d s :
  String.length (Str.replace_char c d s) = String.length s.
Proof. induction s as [|x s IH]; simpl; [reflexivity | now rewrite IH]. Qed.

Lemma remove_spaces_id s :
  Str.all (fun c => negb (Str.is_space c)) s = true -> Str.remove_spaces s = s.
Proof.
  induction s as [|x s IH]; simpl; [reflexivity|].
  intros H. apply andb_true_iff in H as [Hx Hs].
  apply negb_true_iff in Hx. rewrite Hx, (IH Hs). reflexivity.
Qed.

Lemma all_replace_char (p q : ascii -> bool) c d s :
  (forall x, p x = true -> q (if Ascii.eqb x c then d else x) = true) ->
  Str.all p s = true -> Str.all q (Str.replace_char c d s) = true.
Proof.
  intros Hpq. induction s as [|x s IH]; simpl; [reflexivity|].
  intros H. apply andb_true_iff in H as [Hx Hs].
  rewrite (Hpq _ Hx). simpl. auto.
Qed.

Lemma all_remove_spaces (p : ascii -> bool) s :
  Str.all p s = true -> Str.all p (Str.remove_spaces s) = true.
Proof.
  induction s as [|x s IH]; simpl; [reflexivity|].
  intros H. apply andb_true_iff in H as [Hx Hs].
  destruct (Str.is_space x); simpl; [auto | rewrite Hx; simpl; auto].
Qed.

(** [is_space] is membership in the list of codes. *)
Lemma is_space_codes c :
  Str.is_space c = existsb (N.eqb (N_of_ascii c)) white_space_codes.
Proof. destruct c as [[] [] [] [] [] [] [] []]; reflexivity. Qed.

Lemma atob_input_clean s : Str.all no_url_char_or_space (atob_input s) = true.
Proof.
  unfold atob_input. induction s as [|x s IH]; simpl; [reflexivity|].
  destruct (Str.is_space _) eqn:W; [exact IH|].
  simpl. rewrite IH, andb_true_r. unfold no_url_char_or_space.
  rewrite <- is_space_codes, W.
  destruct (Ascii.eqb_spec x "-") as [->|N1]; [reflexivity|].
  destruct (Ascii.eqb_spec x "_") as [->|N2]; [reflexivity|].
  apply Ascii.eqb_neq in N1, N2. now rewrite N1, N2.
Qed.

(** X9. [base64URLDecode] turns base64url into base64 before [atob]: what
    it hands to [atob] never holds a [-], a [_] or a white space character
    (codes 9 to 13, 32 and 160); and for a segment over the base64url
    alphabet it is a string of the same length over [[A-Za-z0-9+/]], with
    no padding added. *)
Theorem X9_base64url_translated_for_atob :
  forall (P : Platform) s,
    base64URLDecode P s =
      match atob P (atob_input s) with
      | Some bytes => Ok bytes
      | None => Throw (DOMException "InvalidCharacterError")
      end /\
    Str.all no_url_char_or_space (atob_input s) = true /\
    (Str.all base64url_char s = true ->
     Str.all base64_char (atob_input s) = true /\
     String.length (atob_input s) = String.length s).
Proof.
  intros P s. split; [reflexivity|]. split; [apply atob_input_clean|].
  intros H. unfold atob_input.
  assert (A1 : Str.all after_minus (Str.replace_char "-" "+" s) = true).
  { apply (all_replace_char base64url_char); [|assumption].
    intros x. destruct x as [[] [] [] [] [] [] [] []]; vm_compute; congruence. }
  assert (A2 : Str.all base64_char
                 (Str.replace_char "_" "/" (Str.replace_char "-" "+" s)) = true).
  { apply (all_replace_char after_minus); [|assumption].
    intros x. destruct x as [[] [] [] [] [] [] [] []]; vm_compute; congruence. }
  rewrite remove_spaces_id.
  - split; [assumption|]. now rewrite !replace_char_length.
  - eapply Shapes.all_impl; [|exact A2].
    intros x. destruct x as [[] [] [] [] [] [] [] []]; vm_compute; congruence.
Qed.

(** X10. Construction succeeds exactly when the team is a non-empty
    string of lower-case letters, digits and hyphens and the audience is 64
    lower-case hexadecimal digits; an audience in upper-case hex, or of
    another length, makes [useCloudflareAccess] throw. *)
Theorem X10_construction_iff_team_and_audience_well_formed :
  forall (P : Platform) team audience,
    (exists mw, useCloudflareAccess P team audience = Ok mw) <->
    (Str.nonempty team = true /\ Str.all team_char team = true) /\
    (String.length audience = 64 /\ Str.all hex_char audience = true).
Proof.
  intros P team audience. split.
  - intros [mw H]. apply useCloudflareAccess_Ok in H as (_ & T & A).
    split; [now apply Shapes.accessTeam_shape | now apply Shapes.hex64_shape].
  - intros [T A]. apply Shapes.accessTeam_shape in T. apply Shapes.hex64_shape in A.
    eexists. now apply useCloudflareAccess_accepts.
Qed.

(** X11. A token that passes every claim check but whose signature does
    not verify is rejected: with "Could not verify JWT." after one call of
    [verify] when the signature segment decodes, and with the decoding
    error, [verify] not called, when it does not. *)
Theorem X11_bad_signature_rejected :
  forall (P : Platform) req dom aud jwk p,
    signing_key P req dom = Some jwk ->
    token_payload P req = Some p ->
    iss (payload_common p) = dom ->
    includesAud p aud = true ->
    (inject_Z (now_floor P) < exp (payload_common p))%Q ->
    (forall u, p = UserPayload u -> (user_nbf u <= inject_Z (now_ceil P))%Q) ->
    signature_verifies P req jwk = false ->
    exists header payload signature,
      token_parts req = Some (header, payload, signature) /\
      match base64URLDecode P signature with
      | Ok sg =>
          validateAccessJWT P req dom aud =
          (Throw (Error "Could not verify JWT."),
           [EFetch (certs_url dom); EImportKey jwk;
            EVerify {| imported := jwk |} sg (header ++ "." ++ payload)])
      | Throw e =>
          validateAccessJWT P req dom aud =
          (Throw e, [EFetch (certs_url dom); EImportKey jwk])
      end.
Proof.
  intros P req dom aud jwk p K Q I A E N V.
  pose proof (proj2 (claim_checks_None_iff P req dom aud p Q)
                (conj I (conj A (conj E N)))) as C.
  destruct (run_reached P req dom aud _ _ K Q) as (jwt & h & pl & s & Hh & T & R).
  exists h, pl, s. split; [assumption|].
  rewrite R, C. unfold signature_verifies in V. rewrite T in V.
  destruct (base64URLDecode P s) as [sb|]; [|reflexivity].
  cbv zeta. unfold asciiToUint8Array in *. rewrite V. reflexivity.
Qed.

(** X12. The status of the certs response is never read: rewriting the
    status of every response (a 200 into a 500, say) changes nothing in any
    run of [validateAccessJWT]; only the body decides. *)
Theorem X12_response_status_is_ignored :
  forall (f : Z -> Z) (P : Platform) req dom aud,
    validateAccessJWT (with_status f P) req dom aud
    = validateAccessJWT P req dom aud.
Proof.
  intros f P req dom aud. rewrite !validateAccessJWT_run.
  unfold decode_segment, base64URLDecode, JSON_parse_bytes, claim_checks.
  cbn [with_status atob JSON_parse zod_uuid fetch importKey_ok verify_ok Date_now].
  destruct (extractJWTFromRequest req) as [jwt|]; [|reflexivity].
  destruct (Str.split "." jwt) as [|a [|b [|c [|d l]]]]; try reflexivity.
  destruct (fetch P (certs_url dom)) as [r|]; reflexivity.
Qed.

(** X23. When [new URL] refuses the team domain, which the team pattern
    does not exclude (a team such as [xn--a] passes it), no request is
    ever accepted: every run of [validateAccessJWT] throws without any
    platform call, no key set is fetched, and the middleware answers with
    the generic 401. *)
Theorem X23_refused_team_domain_rejects_offline :
  forall (P : Platform) dom aud c next,
    URL_canParse P dom = false ->
    fetched_certs P dom = None /\
    is_throw (outcome (validateAccessJWT P (req_raw c) dom aud)) = true /\
    calls (validateAccessJWT P (req_raw c) dom aud) = [] /\
    outcome (middleware P dom aud c next) = Throw unauthorized.
Proof.
  intros P dom aud c next H.
  assert (N : fetched_certs P dom = None)
    by (unfold fetched_certs, new_URL; now rewrite H).
  assert (V : is_throw (outcome (validateAccessJWT P (req_raw c) dom aud)) = true)
    by apply (run_no_certs P (req_raw c) dom aud N).
  split; [exact N|]. split; [exact V|]. split.
  - rewrite validateAccessJWT_run, H. unfold calls. cbn [negb].
    case_innermost; reflexivity.
  - now apply middleware_rejects.
Qed.

(* ================================================================= *)
(** * The error handler and the Access middleware together *)

(** X13. Every request whose validation fails ends, through [useOnError],
    as the response 401 [{ success: false, error: { message:
    "unauthorized" } }], and the error handler makes no Sentry call for
    it. *)
Theorem X13_failed_validation_answers_401 :
  forall (P : Platform) dom aud c next c',
    is_throw (outcome (validateAccessJWT P (req_raw c) dom aud)) = true ->
    exists e,
      outcome (middleware P dom aud c next) = Throw e /\
      useOnError e c' =
      ({| res_status := 401; res_json := APIError "unauthorized" |}, []).
Proof.
  intros P dom aud c next c' H.
  exists unauthorized. split; [now apply middleware_rejects | reflexivity].
Qed.

(** X14. What [useOnError] lets out: the message of an error that is not
    an HTTPException never reaches the response (it is always "internal
    server error", status 500); a 401 always reads "unauthorized" whatever
    the exception said; and Sentry is called by the handler exactly when it
    is set and the error is not an HTTPException below 500. *)
Theorem X14_error_handler_masks_and_reports :
  forall err c,
    ((forall s m, err <> HTTPException s m) ->
     fst (useOnError err c)
     = {| res_status := 500; res_json := APIError "internal server error" |}) /\
    (forall m, err = HTTPException 401 m ->
     useOnError err c
     = ({| res_status := 401; res_json := APIError "unauthorized" |}, [])) /\
    (forall s m, err = HTTPException s m -> s <> 401%Z ->
     fst (useOnError err c) = {| res_status := s; res_json := APIError m |}) /\
    (In (SentryCaptureException err) (snd (useOnError err c)) <->
     var_sentry c = true /\
     forall s m, err = HTTPException s m -> (500 <= s)%Z).
Proof.
  intros err c. split; [|split; [|split]].
  - intros N. destruct err as [m|m|m|m|m|s m]; try reflexivity.
    now contradiction (N s m).
  - intros m ->. reflexivity.
  - intros s m -> N. unfold useOnError.
    destruct (500 <=? s)%Z; [reflexivity|].
    destruct (Z.eqb_spec s 401); [contradiction | reflexivity].
  - unfold useOnError. destruct err as [m|m|m|m|m|s m];
      try (destruct (var_sentry c); cbn; split;
           [ intros _; split; [reflexivity | discriminate]
           | intros _; auto
           | intros [H|[]]; discriminate
           | intros [? _]; discriminate ]).
    destruct (Z.leb_spec 500 s).
    + destruct (var_sentry c); cbn; split.
      * intros _. split; [reflexivity|]. now intros s' m' [= <- _].
      * intros _. auto.
      * intros [].
      * intros [? _]. discriminate.
    + destruct (s =? 401)%Z; cbn; split;
        [ intros [] | intros [_ G]; specialize (G _ _ eq_refl); lia
        | intros [] | intros [_ G]; specialize (G _ _ eq_refl); lia ].
Qed.

(* ================================================================= *)
(** * Token authentication *)

Lemma parse_tokens (l : list string) :
  parse "useAuth token" (z_array z_string_min1) (JArr (map JStr l))
  = if forallb Str.nonempty l then Ok l else Throw (ZodError "useAuth token").
Proof.
  unfold parse, z_array.
  assert (E : parse_items z_string_min1 (map JStr l)
              = if forallb Str.nonempty l then Some l else None).
  { induction l as [|t l IH]; [reflexivity|].
    cbn [map parse_items forallb]. unfold z_string_min1 at 1, z_string.
    destruct (Str.nonempty t); [|reflexivity]. rewrite IH. cbn [andb].
    destruct (forallb Str.nonempty l); reflexivity. }
  rewrite E. destruct (forallb Str.nonempty l); reflexivity.
Qed.

Lemma split_str_skip sep : forall s k,
  split_str sep k s = split_str sep 0 (substring_from k s).
Proof.
  induction s as [|c s IH]; intros k.
  - destruct k; reflexivity.
  - destruct k as [|k]; [reflexivity|]. cbn [split_str substring_from]. apply IH.
Qed.

Lemma split_str_not_nil sep : forall s k, split_str sep k s <> [].
Proof.
  induction s as [|c s IH]; intros k; cbn [split_str]; [discriminate|].
  destruct k as [|k]; [|apply IH].
  destruct (String.prefix sep (String c s)); [discriminate|].
  destruct (split_str sep 0 s); discriminate.
Qed.

(** One part exactly when the separator does not occur. *)
Lemma split_str_one_part sep s :
  Str.nonempty sep = true ->
  length (split_str sep 0 s) = 1 <-> Str.includes sep s = false.
Proof.
  intros N. induction s as [|c s IH].
  - destruct sep; [discriminate|]. cbn. tauto.
  - cbn [split_str Str.includes].
    destruct (String.prefix sep (String c s)) eqn:E.
    + cbn [orb length]. split; [|discriminate].
      intros H. pose proof (split_str_not_nil sep s (String.length sep - 1)).
      destruct (split_str sep (String.length sep - 1) s); [contradiction|discriminate].
    + cbn [orb]. rewrite <- IH.
      pose proof (split_str_not_nil sep s 0).
      destruct (split_str sep 0 s); [contradiction|]. reflexivity.
Qed.

Lemma prefix_split p : forall s,
  String.prefix p s = true -> s = p ++ substring_from (String.length p) s.
Proof.
  induction p as [|a p IH]; intros s; [reflexivity|].
  destruct s as [|b s]; [discriminate|]. cbn.
  destruct (Ascii.ascii_dec a b) as [->|]; [|discriminate].
  intros H. f_equal. now apply IH.
Qed.

Lemma some_token_is_iff tokens v :
  some_token_is tokens v = true <-> exists t, In t tokens /\ v = Some t.
Proof.
  unfold some_token_is. destruct v as [v|].
  - rewrite existsb_exists. split.
    + intros (t & I & E). apply String.eqb_eq in E. subst. eauto.
    + intros (t & I & [= ->]). exists t. split; [assumption | apply String.eqb_refl].
  - split; [discriminate | intros (t & _ & [=])].
Qed.

Lemma prefix_bearer rest : String.prefix "Bearer " ("Bearer " ++ rest) = true.
Proof. cbn. destruct rest; reflexivity. Qed.

Lemma split_bearer rest :
  split_str "Bearer " 0 ("Bearer " ++ rest) = "" :: split_str "Bearer " 0 rest.
Proof.
  pose proof (prefix_bearer rest) as E. cbn [append] in E |- *.
  cbn [split_str]. rewrite E. reflexivity.
Qed.

Lemma substring_bearer rest :
  substring_from (String.length "Bearer ") ("Bearer " ++ rest) = rest.
Proof. reflexivity. Qed.

(** The bearer check, without the detour through [split]. *)
Lemma checkBearer_iff tokens c :
  checkBearer tokens c = true <->
  exists rest,
    req_header c "Authorization" = Some ("Bearer " ++ rest) /\
    Str.includes "Bearer " rest = false /\
    In (trim rest) tokens.
Proof.
  unfold checkBearer. cbv zeta.
  destruct (req_header c "Authorization") as [a|];
    [|split; [discriminate | intros (r & [=] & _)]].
  split.
  - destruct (Str.nonempty a); [|discriminate]. cbn [negb orb].
    destruct (String.prefix "Bearer " a) eqn:Pf; [|discriminate]. cbn [negb].
    pose proof (prefix_split _ _ Pf) as E.
    remember (substring_from (String.length "Bearer ") a) as rest eqn:R.
    clear R Pf. subst a.
    rewrite split_bearer. cbn [length].
    destruct (Nat.eqb (S (length (split_str "Bearer " 0 rest))) 2) eqn:L;
      [|discriminate]. cbn [negb].
    intros H. apply some_token_is_iff in H as (t & I & [= T]).
    exists rest. split; [reflexivity|]. split.
    + apply split_str_one_part; [reflexivity|].
      apply Nat.eqb_eq in L. now injection L.
    + now rewrite T.
  - intros (rest & [= ->] & N & I).
    apply (split_str_one_part "Bearer " rest eq_refl) in N.
    change (String "B" (String "e" (String "a" (String "r"
              (String "e" (String "r" (String " " rest)))))))
      with ("Bearer " ++ rest).
    rewrite prefix_bearer, split_bearer, substring_bearer.
    cbn [Str.nonempty append negb orb length]. rewrite N. cbn [Nat.eqb negb].
    apply some_token_is_iff. eauto.
Qed.

Lemma existsb_id_map {A} (f : A -> bool) l :
  existsb (fun b => b) (map f l) = existsb f l.
Proof. induction l as [|x l IH]; simpl; [reflexivity | now rewrite IH]. Qed.

Lemma existsb_id_not_nil l :
  existsb (fun b : bool => b) l = true -> Nat.eqb (length l) 0 = false.
Proof. destruct l; [discriminate | reflexivity]. Qed.

Lemma forallb_nonempty_false l :
  forallb Str.nonempty l = false <-> In "" l.
Proof.
  induction l as [|t l IH]; simpl; [split; [discriminate | contradiction]|].
  destruct t as [|a t]; simpl.
  - split; auto.
  - rewrite IH. split; [auto | intros [H|H]; [discriminate | assumption]].
Qed.

(** Some enabled checker passes exactly when the request presents a
    configured token through an enabled method. *)
Lemma some_checker_iff options tokens c :
  existsb (fun checkAuth => checkAuth) (checkers options tokens c) = true <->
  exists t, In t tokens /\ presents options c t.
Proof.
  unfold checkers, presents. rewrite !existsb_app, !orb_true_iff. split.
  - intros [H|[H|H]].
    + destruct (enabled (opt_queryKey options)); [|discriminate].
      cbn in H. rewrite orb_false_r in H.
      apply some_token_is_iff in H as (t & I & E). exists t. auto.
    + destruct (opt_headers options) as [hs|]; [|discriminate].
      destruct (Nat.ltb 0 (length hs)); [|discriminate].
      rewrite existsb_id_map in H. apply existsb_exists in H as (h & Ih & H).
      apply some_token_is_iff in H as (t & I & E).
      exists t. split; [assumption|]. right. left. exists hs, h. auto.
    + destruct (enabled (opt_bearerAuth options)); [|discriminate].
      cbn in H. rewrite orb_false_r in H.
      apply checkBearer_iff in H as (rest & Hh & N & I).
      exists (trim rest). split; [assumption|]. right. right.
      split; [reflexivity|]. exists rest. auto.
  - intros (t & I & [[Q E]|[(hs & h & Hs & Ih & E)|[B (rest & Hh & N & T)]]]).
    + left. rewrite Q. cbn. rewrite orb_false_r.
      apply some_token_is_iff. eauto.
    + right. left. rewrite Hs.
      destruct hs as [|h0 hs]; [contradiction|]. cbn [length Nat.ltb Nat.leb].
      rewrite existsb_id_map. apply existsb_exists. exists h. split; [assumption|].
      apply some_token_is_iff. eauto.
    + right. right. rewrite B. cbn. rewrite orb_false_r.
      apply checkBearer_iff. exists rest. subst t. auto.
Qed.

(** X15. [useAuth] hands the request on to the rest of the chain exactly
    when no configured token is empty and the request presents a
    configured token through an enabled method: as the query parameter
    [key], as the exact value of a listed header, or as an [Authorization]
    header that is "Bearer " followed by text in which "Bearer " does not
    occur again and which trims to the token.  So a missing or empty
    credential never authenticates. *)
Theorem X15_useAuth_accepts_iff_token_presented :
  forall options c,
    (forall next, useAuth options c next = next) <->
    forallb Str.nonempty (configured_tokens options) = true /\
    exists t, In t (configured_tokens options) /\ presents options c t.
Proof.
  intros options c. unfold useAuth, configured_tokens. cbv zeta.
  rewrite parse_tokens. split.
  - intros H. specialize (H (emit ENext)). revert H.
    destruct (forallb Str.nonempty _) eqn:F; [|discriminate].
    rewrite bind_lift_Ok.
    destruct (Nat.eqb _ 0); [discriminate|].
    destruct (existsb _ _) eqn:E; [|discriminate].
    intros _. split; [reflexivity|]. now apply some_checker_iff.
  - intros [F E] next. rewrite F, bind_lift_Ok.
    apply some_checker_iff in E. rewrite (existsb_id_not_nil _ E), E. reflexivity.
Qed.

(** X16. With no method enabled (no query key, no header or an empty list
    of headers, no bearer) no request is authenticated, whatever it
    presents, and the rest of the chain is not run: the answer is the HTTP
    500 exception "no auth methods enabled" when no configured token is
    empty, and the ZodError of the token list, thrown first, when one
    is. *)
Theorem X16_no_methods_never_authenticates :
  forall options c next,
    enabled (opt_queryKey options) = false ->
    opt_headers options = None \/ opt_headers options = Some [] ->
    enabled (opt_bearerAuth options) = false ->
    useAuth options c next
    = (Throw (if forallb Str.nonempty (configured_tokens options)
              then HTTPException 500 "no auth methods enabled"
              else ZodError "useAuth token"), []).
Proof.
  intros options c next Q H B. unfold useAuth, configured_tokens in *. cbv zeta.
  rewrite parse_tokens.
  destruct (forallb Str.nonempty _); [|reflexivity].
  rewrite bind_lift_Ok. unfold checkers. rewrite Q, B.
  destruct H as [-> | ->]; reflexivity.
Qed.

(** X17. An empty string among the configured tokens makes every request
    fail with the ZodError of the token list, before any credential is
    looked at: not a 401, and the rest of the chain is not run. *)
Theorem X17_empty_configured_token_throws :
  forall options c next,
    In "" (configured_tokens options) ->
    useAuth options c next = (Throw (ZodError "useAuth token"), []).
Proof.
  intros options c next H. apply forallb_nonempty_false in H.
  unfold useAuth, configured_tokens in *. cbv zeta.
  rewrite parse_tokens, H. reflexivity.
Qed.


(* ================================================================= *)
(** * Redacting keys from a URL *)

Section RedactFacts.

Variable U : UrlPlatform.

Lemma filter_named_dropped (g : string -> bool) name params :
  g name = false ->
  filter (fun p => g (fst p))
    (filter (fun p : string * string => negb (String.eqb (fst p) name)) params)
  = filter (fun p => g (fst p)) params.
Proof.
  intros G. induction params as [|[k v] rest IH]; [reflexivity|].
  cbn [filter fst]. destruct (String.eqb_spec k name) as [->|N]; cbn [negb].
  - rewrite G. exact IH.
  - cbn [filter fst]. destruct (g k); [now rewrite IH | exact IH].
Qed.

(** [set] leaves alone the pairs that a filter blind to the name keeps. *)
Lemma set_keeps_others (g : string -> bool) name value params :
  g name = false ->
  filter (fun p => g (fst p)) (URLSearchParams_set name value params)
  = filter (fun p => g (fst p)) params.
Proof.
  intros G. unfold URLSearchParams_set.
  destruct (existsb _ params).
  - induction params as [|[k v] rest IH]; [reflexivity|].
    cbn [set_first]. destruct (String.eqb_spec k name) as [->|N].
    + cbn [filter fst]. rewrite G. now apply filter_named_dropped.
    + cbn [filter fst]. destruct (g k); [now rewrite IH | exact IH].
  - rewrite filter_app. cbn [filter fst]. rewrite G. apply app_nil_r.
Qed.

Lemma pairs_named_of_others name params :
  pairs_named name
    (filter (fun p : string * string => negb (String.eqb (fst p) name)) params) = [].
Proof.
  unfold pairs_named. induction params as [|[k v] rest IH]; [reflexivity|].
  cbn [filter fst]. destruct (String.eqb k name) eqn:E; cbn [negb]; [exact IH|].
  cbn [filter fst]. now rewrite E.
Qed.

Lemma pairs_named_nil name params :
  existsb (fun p : string * string => String.eqb (fst p) name) params = false ->
  pairs_named name params = [].
Proof.
  unfold pairs_named. induction params as [|[k v] rest IH]; [reflexivity|].
  cbn [existsb filter fst]. destruct (String.eqb k name); [discriminate|].
  exact IH.
Qed.

(** After [set] the name has one pair, with the value. *)
Lemma set_pairs_named name value params :
  pairs_named name (URLSearchParams_set name value params) = [(name, value)].
Proof.
  unfold URLSearchParams_set.
  destruct (existsb _ params) eqn:E.
  - induction params as [|[k v] rest IH]; [discriminate|].
    cbn [set_first]. cbn [existsb fst] in E.
    destruct (String.eqb_spec k name) as [->|N].
    + unfold pairs_named at 1. cbn [filter fst]. rewrite String.eqb_refl.
      f_equal. apply pairs_named_of_others.
    + unfold pairs_named at 1. cbn [filter fst].
      apply String.eqb_neq in N. rewrite N. cbn [orb] in E. now apply IH.
  - unfold pairs_named. rewrite filter_app. fold (pairs_named name params).
    rewrite (pairs_named_nil _ _ E). cbn [filter fst app].
    now rewrite String.eqb_refl.
Qed.

Lemma others_all name (params : list (string * string)) :
  pairs_named name params = [] ->
  filter (fun p : string * string => negb (String.eqb (fst p) name)) params = params.
Proof.
  unfold pairs_named. induction params as [|[k v] rest IH]; [reflexivity|].
  cbn [filter fst]. destruct (String.eqb k name); [discriminate|].
  cbn [negb]. intros H. now rewrite IH.
Qed.

(** [set] changes nothing when the name already has that one pair. *)
Lemma set_fixed name value params :
  pairs_named name params = [(name, value)] ->
  URLSearchParams_set name value params = params.
Proof.
  intros H. unfold URLSearchParams_set.
  destruct (existsb _ params) eqn:E;
    [|rewrite (pairs_named_nil _ _ E) in H; discriminate].
  clear E. induction params as [|[k v] rest IH]; [discriminate|].
  cbn [set_first]. unfold pairs_named in H. cbn [filter fst] in H.
  destruct (String.eqb k name) eqn:K.
  - injection H as -> -> H. now rewrite (others_all _ _ H).
  - f_equal. now apply IH.
Qed.

Lemma set_names name value params k :
  In k (map fst (URLSearchParams_set name value params)) ->
  k = name \/ In k (map fst params).
Proof.
  unfold URLSearchParams_set. destruct (existsb _ params).
  - induction params as [|[k0 v0] rest IH]; [contradiction|].
    cbn [set_first]. destruct (String.eqb_spec k0 name) as [->|N].
    + cbn [map fst In]. intros [<-|H]; [auto|].
      right. right. apply in_map_iff in H as ([k' v'] & <- & H).
      apply filter_In in H as [H _]. apply in_map_iff. now exists (k', v').
    + cbn [map fst In]. intros [<-|H]; [auto|].
      destruct (IH H); auto.
  - rewrite map_app, in_app_iff. cbn. intros [H|[<-|[]]]; auto.
Qed.

Lemma fold_names keys : forall params k,
  In k (map fst (fold_left (redact_key U) keys params)) ->
  In k keys \/ In k (map fst params).
Proof.
  induction keys as [|key keys IH]; intros params k; cbn [fold_left]; [auto|].
  intros H. destruct (IH _ _ H) as [H'|H']; [left; now right|].
  unfold redact_key in H'. destruct (is_redacted_key U key); [|auto].
  destruct (set_names _ _ _ _ H') as [->|]; [left; now left | auto].
Qed.

Lemma fold_keeps_others (g : string -> bool) keys :
  (forall k, is_redacted_key U k = true -> g k = false) ->
  forall params,
    filter (fun p => g (fst p)) (fold_left (redact_key U) keys params)
    = filter (fun p => g (fst p)) params.
Proof.
  intros G. induction keys as [|key keys IH]; intros params; [reflexivity|].
  cbn [fold_left]. rewrite IH. unfold redact_key.
  destruct (is_redacted_key U key) eqn:S; [|reflexivity].
  apply set_keeps_others. now apply G.
Qed.

Lemma fold_redacts keys : forall done params,
  (forall k, In k done -> is_redacted_key U k = true ->
             pairs_named k params = [(k, "REDACTED")]) ->
  forall k, In k (done ++ keys) -> is_redacted_key U k = true ->
            pairs_named k (fold_left (redact_key U) keys params) = [(k, "REDACTED")].
Proof.
  induction keys as [|key keys IH]; intros done params Inv k.
  - rewrite app_nil_r. apply Inv.
  - cbn [fold_left]. change (key :: keys) with ([key] ++ keys)%list.
    rewrite app_assoc. apply IH. clear k. intros k Hk S.
    apply in_app_iff in Hk as [Hk|[<-|[]]].
    + unfold redact_key. destruct (is_redacted_key U key) eqn:Sk; [|now apply Inv].
      destruct (String.eqb_spec k key) as [->|N]; [apply set_pairs_named|].
      unfold pairs_named. rewrite (set_keeps_others (fun n => String.eqb n k)).
      * now apply Inv.
      * apply String.eqb_neq. congruence.
    + unfold redact_key. rewrite S. apply set_pairs_named.
Qed.

Lemma fold_fixed keys params :
  (forall key, In key keys -> redact_key U params key = params) ->
  fold_left (redact_key U) keys params = params.
Proof.
  induction keys as [|key keys IH]; intros H; [reflexivity|].
  cbn [fold_left]. rewrite (H key (or_introl eq_refl)). apply IH.
  intros k Hk. apply H. now right.
Qed.

End RedactFacts.

(** X19. After [redactUrl] every parameter whose lower-cased name is in
    the list has exactly one pair left, with the value "REDACTED":
    repeated parameters of that name collapse into the first. *)
Theorem X19_listed_parameters_are_redacted :
  forall (U : UrlPlatform) _url url url' k,
    to_URL U _url = Some url ->
    redactUrl U _url = Ok url' ->
    is_redacted_key U k = true ->
    In k (map fst (searchParams url)) ->
    pairs_named k (searchParams url') = [(k, "REDACTED")].
Proof.
  intros U _url url url' k T R S I. unfold redactUrl in R. rewrite T in R.
  injection R as <-. cbn [searchParams].
  apply (fold_redacts U (map fst (searchParams url)) [] (searchParams url));
    [intros ? [] | exact I | exact S].
Qed.

(** X20. [redactUrl] touches nothing else: the parameters whose
    lower-cased name is not in the list are the same pairs in the same
    order, the rest of the URL is unchanged, and no parameter name appears
    that was not there. *)
Theorem X20_other_parameters_are_kept :
  forall (U : UrlPlatform) _url url url',
    to_URL U _url = Some url ->
    redactUrl U _url = Ok url' ->
    filter (fun p => negb (is_redacted_key U (fst p))) (searchParams url')
    = filter (fun p => negb (is_redacted_key U (fst p))) (searchParams url) /\
    url_without_query url' = url_without_query url /\
    (forall k, In k (map fst (searchParams url')) -> In k (map fst (searchParams url))).
Proof.
  intros U _url url url' T R. unfold redactUrl in R. rewrite T in R.
  injection R as <-. cbn [searchParams url_without_query].
  split; [|split; [reflexivity|]].
  - apply (fold_keeps_others U (fun k => negb (is_redacted_key U k))).
    intros k ->. reflexivity.
  - intros k H. destruct (fold_names U _ _ _ H); assumption.
Qed.

(** X21. The entry 'apiKey' of the list is dead: a lower-cased name has
    no upper-case K, so it never equals it.  Hence a parameter named
    [apiKey] in any casing, whose name lower-cases to "apikey", keeps its
    value: only names that lower-case to "key" or "api_key" are
    redacted. *)
Theorem X21_apiKey_is_not_redacted :
  forall (U : UrlPlatform) _url url url',
    (forall s, toLowerCase U s <> "apiKey") ->
    to_URL U _url = Some url ->
    redactUrl U _url = Ok url' ->
    (forall k, is_redacted_key U k = true <->
               toLowerCase U k = "key" \/ toLowerCase U k = "api_key") /\
    (forall k, toLowerCase U k = "apikey" ->
               pairs_named k (searchParams url') = pairs_named k (searchParams url)).
Proof.
  intros U _url url url' L T R.
  assert (S : forall k, is_redacted_key U k = true <->
                        toLowerCase U k = "key" \/ toLowerCase U k = "api_key").
  { intros k. unfold is_redacted_key. cbn [existsb].
    rewrite orb_false_r, !orb_true_iff, !String.eqb_eq. split.
    - intros [H|[H|H]];
        [left; now symmetry | exfalso; apply (L k); now symmetry | right; now symmetry].
    - intros [H|H]; [left | right; right]; now symmetry. }
  split; [exact S|].
  intros k K. unfold redactUrl in R. rewrite T in R.
  injection R as <-. cbn [searchParams]. unfold pairs_named.
  apply (fold_keeps_others U (fun n => String.eqb n k)).
  intros k' S'. apply String.eqb_neq. intros ->.
  apply S in S'. rewrite K in S'. destruct S'; discriminate.
Qed.

(** X22. Redacting is idempotent: a redacted URL comes back unchanged
    from [redactUrl]. *)
Theorem X22_redactUrl_is_idempotent :
  forall (U : UrlPlatform) _url url',
    redactUrl U _url = Ok url' ->
    redactUrl U (inl url') = Ok url'.
Proof.
  intros U _url url' R. unfold redactUrl in R.
  destruct (to_URL U _url) as [url|]; [|discriminate].
  injection R as <-. unfold redactUrl. cbn [to_URL searchParams url_without_query].
  f_equal. f_equal.
  set (l1 := fold_left (redact_key U) (map fst (searchParams url)) (searchParams url)).
  apply fold_fixed. intros key Hk. unfold redact_key.
  destruct (is_redacted_key U key) eqn:S; [|reflexivity].
  apply set_fixed.
  apply (fold_redacts U (map fst (searchParams url)) [] (searchParams url));
    [intros ? [] | | exact S].
  cbn [app]. destruct (fold_names U _ _ _ Hk); assumption.
Qed.

(* ================================================================= *)
(** * The further properties on concrete inputs *)

Module XWitness.

Import Example Example2.

Lemma X3_witness :
  signing_key P0 (request (Some "hdr.user.goodsig")) domain = Some key1.
Proof.
  destruct (X3_verify_only_after_all_checks P0 (request (Some "hdr.user.goodsig"))
              domain aud1 {| imported := key1 |} "goodsig" "hdr.user")
    as (hdr & p & h & pl & s & _ & K & _).
  - vm_compute. right. right. left. reflexivity.
  - exact K.
Defined.

Lemma X4_witness :
  validateAccessJWT platform2 (request (Some "hdrnone.user.goodsig")) domain aud1
  = (Throw (ZodError "AccessHeader"), []).
Proof.
  eapply (X4_other_algorithms_rejected_offline platform2
            (request (Some "hdrnone.user.goodsig")) domain aud1).
  - vm_compute. reflexivity.
  - vm_compute. reflexivity.
  - intros o [= <-]. vm_compute. discriminate.
Defined.

Lemma X6_witness :
  outcome (middleware P0 domain aud1 (context (Some "hdr.user.goodsig")) next)
  = outcome next.
Proof.
  rewrite (X6_accepted_request_runs_next P0 domain aud1
             (context (Some "hdr.user.goodsig")) next
             "hdr.user.goodsig" user_payload);
    [reflexivity | vm_compute; reflexivity].
Defined.

Lemma X7_witness :
  outcome (middleware P0 domain aud1 (context (Some "hdr.userexp.goodsig")) next)
  = Throw unauthorized.
Proof.
  rewrite (X7_rejected_request_is_reported_not_forwarded P0 domain aud1
             (context (Some "hdr.userexp.goodsig")) next (Error "JWT has expired."));
    reflexivity.
Defined.

Lemma X11_witness :
  exists header payload signature,
    token_parts (request (Some "hdr.user.badsig")) = Some (header, payload, signature).
Proof.
  destruct (X11_bad_signature_rejected P0 (request (Some "hdr.user.badsig"))
              domain aud1 key1 user_payload)
    as (h & pl & s & T & _).
  - vm_compute. reflexivity.
  - vm_compute. reflexivity.
  - reflexivity.
  - reflexivity.
  - vm_compute. reflexivity.
  - intros u [= <-]. vm_compute. discriminate.
  - reflexivity.
  - exists h, pl, s. exact T.
Defined.

Lemma X23_witness :
  (exists mw, useCloudflareAccess P0 "xn--a" aud1 = Ok mw) /\
  calls (validateAccessJWT P0 (request (Some "hdr.user.goodsig"))
           (teamDomain "xn--a") aud1) = [].
Proof.
  split; [eexists; reflexivity|].
  apply (X23_refused_team_domain_rejects_offline P0 (teamDomain "xn--a") aud1
           (context (Some "hdr.user.goodsig")) next).
  reflexivity.
Defined.

Lemma X13_witness :
  exists e,
    outcome (middleware P0 domain aud1 (context None) next) = Throw e /\
    useOnError e (context None)
    = ({| res_status := 401; res_json := APIError "unauthorized" |}, []).
Proof.
  apply (X13_failed_validation_answers_401 P0 domain aud1 (context None) next).
  reflexivity.
Defined.

Lemma X16_witness :
  useAuth AuthExample.no_methods (AuthExample.bearer_request "Bearer secret") next
  = (Throw (HTTPException 500 "no auth methods enabled"), []).
Proof.
  apply (X16_no_methods_never_authenticates AuthExample.no_methods
           (AuthExample.bearer_request "Bearer secret") next);
    try reflexivity. right. reflexivity.
Defined.

Lemma X17_witness :
  useAuth AuthExample.empty_token (AuthExample.query_request "secret") next
  = (Throw (ZodError "useAuth token"), []).
Proof.
  apply X17_empty_configured_token_throws. right. left. reflexivity.
Defined.

Lemma to_lower_not_K c : Regex.to_lower c <> "K"%char.
Proof. destruct c as [[] [] [] [] [] [] [] []]; vm_compute; discriminate. Qed.

Lemma ascii_lower_not_apiKey s : UrlExample.ascii_lower s <> "apiKey".
Proof.
  destruct s as [|c0 [|c1 [|c2 [|c3 s]]]]; try discriminate.
  cbn. intros [= _ _ _ H _]. exact (to_lower_not_K _ H).
Qed.

Lemma X19_witness :
  exists url',
    redactUrl UrlExample.platform (inl (UrlExample.url UrlExample.params0)) = Ok url' /\
    pairs_named "key" (searchParams url') = [("key", "REDACTED")].
Proof.
  eexists. split; [reflexivity|].
  eapply (X19_listed_parameters_are_redacted UrlExample.platform
            (inl (UrlExample.url UrlExample.params0)));
    [reflexivity | reflexivity | reflexivity | left; reflexivity].
Defined.

Lemma X20_witness :
  exists url',
    redactUrl UrlExample.platform (inl (UrlExample.url UrlExample.params0)) = Ok url' /\
    url_without_query url' = "https://example.com/path".
Proof.
  eexists. split; [reflexivity|].
  eapply (X20_other_parameters_are_kept UrlExample.platform
            (inl (UrlExample.url UrlExample.params0)) (UrlExample.url UrlExample.params0));
    reflexivity.
Defined.

Lemma X21_witness :
  exists url',
    redactUrl UrlExample.platform (inl (UrlExample.url UrlExample.params0)) = Ok url' /\
    pairs_named "apiKey" (searchParams url') = [("apiKey", "s3")].
Proof.
  eexists. split; [reflexivity|].
  destruct (X21_apiKey_is_not_redacted UrlExample.platform
              (inl (UrlExample.url UrlExample.params0)) (UrlExample.url UrlExample.params0) _
              ascii_lower_not_apiKey eq_refl eq_refl) as [_ K].
  rewrite (K "apiKey" eq_refl). reflexivity.
Defined.

Lemma X22_witness :
  exists url',
    redactUrl UrlExample.platform (inl (UrlExample.url UrlExample.params0)) = Ok url' /\
    redactUrl UrlExample.platform (inl url') = Ok url'.
Proof.
  eexists. split; [reflexivity|].
  eapply (X22_redactUrl_is_idempotent UrlExample.platform
            (inl (UrlExample.url UrlExample.params0))).
  reflexivity.
Defined.

End XWitness.
